(** * spla-schedule: the voting, confirmation and calendar-export logic

    A shallow embedding of the three variants of [App.tsx]:
    - the in-memory variant (no persistence),
    - the localStorage variant,
    - the shared variant mirrored from a Supabase table.

    JavaScript strings are sequences of UTF-16 code units, objects used
    as maps are finite maps, [Date] values are their time value in
    milliseconds since the epoch. *)

From Stdlib Require Import ZArith NArith Lia String Ascii.
From stdpp Require Import base decidable option countable finite list gmap.

Local Open Scope Z_scope.

(** ** Members *)

(** [const members = ["Teru", "Rino", "Shunya", "Yaan"] as const].
    The local variants name the same four members by their Japanese
    labels ([memberLabel] in the shared variant). *)
Inductive Member : Type := Teru | Rino | Shunya | Yaan.

Definition members : list Member := [Teru; Rino; Shunya; Yaan].

#[global] Instance Member_eq_dec : EqDecision Member.
Proof. solve_decision. Defined.

Definition Member_to_nat (m : Member) : nat :=
  match m with Teru => 0 | Rino => 1 | Shunya => 2 | Yaan => 3 end%nat.

Definition Member_of_nat (n : nat) : option Member :=
  match n with
  | 0 => Some Teru | 1 => Some Rino | 2 => Some Shunya | 3 => Some Yaan
  | _ => None
  end%nat.

#[global] Program Instance Member_countable : Countable Member :=
  inj_countable Member_to_nat Member_of_nat _.
Next Obligation. by intros []. Qed.

#[global] Program Instance Member_finite : Finite Member :=
  {| enum := members |}.
Next Obligation. by apply (bool_decide_unpack _). Qed.
Next Obligation. intros []; by apply (bool_decide_unpack _). Qed.

(** ** Votes *)

(** [type Vote = "no" | "if" | "yes"]; the middle state ["if"] is the
    "maybe" of the documentation. *)
Inductive Vote : Type := Vno | Vif | Vyes.

#[global] Instance Vote_eq_dec : EqDecision Vote.
Proof. solve_decision. Defined.

(** [const voteCycle: Vote[] = ["no", "if", "yes"]]. *)
Definition voteCycle : list Vote := [Vno; Vif; Vyes].

(** [Array.prototype.indexOf]: the first index holding [x], or [-1].
    The searched value may be [undefined] (a missing key), which no
    array element equals. *)
Fixpoint indexOf_from {A} `{EqDecision A} (l : list A) (x : A) (i : Z) : Z :=
  match l with
  | [] => -1
  | y :: l' => if decide (y = x) then i else indexOf_from l' x (i + 1)
  end.

Definition indexOf {A} `{EqDecision A} (l : list A) (x : option A) : Z :=
  match x with
  | Some v => indexOf_from l v 0
  | None => -1
  end.

(** [arr[i]] for a numeric index: [undefined] outside the array. *)
Definition array_get {A} (l : list A) (i : Z) : option A :=
  if 0 <=? i then l !! Z.to_nat i else None.

(** [voteCycle[(voteCycle.indexOf(current) + 1) % voteCycle.length]];
    JavaScript's [%] takes the sign of the dividend ([Z.rem]). *)
Definition nextVote (current : option Vote) : option Vote :=
  array_get voteCycle
    (Z.rem (indexOf voteCycle current + 1) (Z.of_nat (length voteCycle))).

(** Votes of one event: [Record<Member, Vote>] as a finite map, so that
    a partial object is expressible. *)
Abbreviation Votes := (gmap Member Vote).

(** [{ ...votes, [m]: next }].  A property set to [undefined] reads
    like an absent one and is dropped by JSON serialisation, so it is
    modelled as absent. *)
Definition spread_set (votes : Votes) (m : Member) (next : option Vote) : Votes :=
  partial_alter (λ _, next) m votes.

(** [Object.fromEntries(members.map((m) => [m, "no"]))]. *)
Definition emptyVotes : Votes :=
  list_to_map (map (λ m, (m, Vno)) members).

(** ** JavaScript strings *)

(** A string is its sequence of UTF-16 code units. *)
Abbreviation jstring := (list N).

(** ASCII literals of the source. *)
Definition str (s : string) : jstring :=
  map N_of_ascii (list_ascii_of_string s).

(** The line feed of ["\n"]. *)
Definition LF : jstring := [10%N].

(** [WhiteSpace] and [LineTerminator] code points of ECMAScript, the
    characters that [String.prototype.trim] strips. *)
Definition is_js_space (c : N) : bool :=
  ((c =? 9) || (c =? 10) || (c =? 11) || (c =? 12) || (c =? 13) ||
   (c =? 32) || (c =? 160) || (c =? 5760) ||
   ((8192 <=? c) && (c <=? 8202)) ||
   (c =? 8232) || (c =? 8233) || (c =? 8239) || (c =? 8287) ||
   (c =? 12288) || (c =? 65279))%N.

Fixpoint trimStart (s : jstring) : jstring :=
  match s with
  | c :: s' => if is_js_space c then trimStart s' else s
  | [] => []
  end.

Definition trimEnd (s : jstring) : jstring := reverse (trimStart (reverse s)).

(** [s.trim()]. *)
Definition trim (s : jstring) : jstring := trimEnd (trimStart s).

(** [!t] for a string [t]: only the empty string is falsy. *)
Definition is_empty (s : jstring) : bool :=
  match s with [] => true | _ => false end.

(** [s.replace(/[-:]/g, '')]: every hyphen and colon is deleted. *)
Definition is_dash_or_colon (c : N) : bool := ((c =? 45) || (c =? 58))%N.

Definition replace_dash_colon (s : jstring) : jstring :=
  List.filter (λ c, negb (is_dash_or_colon c)) s.

(** [s.split(sep)] for a one-character separator: the first piece and
    the remaining ones (the result array is never empty). *)
Fixpoint split (sep : N) (s : jstring) : jstring * list jstring :=
  match s with
  | [] => ([], [])
  | c :: s' =>
      let '(h, t) := split sep s' in
      if (c =? sep)%N then ([], h :: t) else (c :: h, t)
  end.

(** [arr.join(sep)]. *)
Fixpoint join (sep : jstring) (l : list jstring) : jstring :=
  match l with
  | [] => []
  | [x] => x
  | x :: l' => x ++ sep ++ join sep l'
  end.

(** [n] written with exactly [k] decimal digits, zero padded. *)
Fixpoint digits (k : nat) (n : Z) : jstring :=
  match k with
  | O => []
  | S k' => digits k' (n / 10) ++ [Z.to_N (48 + n mod 10)]
  end.

(** ** Dates (ECMAScript time values) *)

Definition msPerDay : Z := 86400000.
Definition msPerHour : Z := 3600000.
Definition msPerMinute : Z := 60000.
Definition msPerSecond : Z := 1000.

Definition Day (t : Z) : Z := t / msPerDay.
Definition TimeWithinDay (t : Z) : Z := t mod msPerDay.

Definition DaysInYear (y : Z) : Z :=
  if negb (y mod 4 =? 0) then 365
  else if negb (y mod 100 =? 0) then 366
  else if negb (y mod 400 =? 0) then 365
  else 366.

Definition DayFromYear (y : Z) : Z :=
  365 * (y - 1970) + (y - 1969) / 4 - (y - 1901) / 100 + (y - 1601) / 400.

Definition TimeFromYear (y : Z) : Z := msPerDay * DayFromYear y.

(** [YearFromTime(t)] is the largest [y] with [TimeFromYear(y) <= t]:
    it is searched upwards from a year that is not after it. *)
Fixpoint year_search (fuel : nat) (t y : Z) : Z :=
  match fuel with
  | O => y
  | S fuel' =>
      if TimeFromYear (y + 1) <=? t then year_search fuel' t (y + 1) else y
  end.

Definition YearFromTime (t : Z) : Z :=
  let d := Day t in
  let y0 := 1970 + (if 0 <=? d then d / 366 else d / 365) in
  year_search (Z.to_nat (Z.abs d / 100000 + 2)) t y0.

Definition InLeapYear (t : Z) : Z :=
  if DaysInYear (YearFromTime t) =? 366 then 1 else 0.

Definition DayWithinYear (t : Z) : Z := Day t - DayFromYear (YearFromTime t).

(** Months are numbered from 0 (January). *)
Definition MonthFromTime (t : Z) : Z :=
  let d := DayWithinYear t in
  let leap := InLeapYear t in
  if d <? 31 then 0
  else if d <? 59 + leap then 1
  else if d <? 90 + leap then 2
  else if d <? 120 + leap then 3
  else if d <? 151 + leap then 4
  else if d <? 181 + leap then 5
  else if d <? 212 + leap then 6
  else if d <? 243 + leap then 7
  else if d <? 273 + leap then 8
  else if d <? 304 + leap then 9
  else if d <? 334 + leap then 10
  else 11.

Definition DateFromTime (t : Z) : Z :=
  let d := DayWithinYear t in
  let leap := InLeapYear t in
  match MonthFromTime t with
  | 0 => d + 1
  | 1 => d - 30
  | 2 => d - 58 - leap
  | 3 => d - 89 - leap
  | 4 => d - 119 - leap
  | 5 => d - 150 - leap
  | 6 => d - 180 - leap
  | 7 => d - 211 - leap
  | 8 => d - 242 - leap
  | 9 => d - 272 - leap
  | 10 => d - 303 - leap
  | _ => d - 333 - leap
  end.

Definition HourFromTime (t : Z) : Z := (t / msPerHour) mod 24.
Definition MinFromTime (t : Z) : Z := (t / msPerMinute) mod 60.
Definition SecFromTime (t : Z) : Z := (t / msPerSecond) mod 60.
Definition msFromTime (t : Z) : Z := t mod msPerSecond.

(** A [Date] holds a time value of at most 8.64e15 ms in absolute value,
    or NaN (an invalid date); [new Date(v)] clips [v] to that. *)
Definition maxTime : Z := 8640000000000000.

Definition TimeClip (v : Z) : option Z :=
  if Z.abs v <=? maxTime then Some v else None.

(** The year of the ISO format: four digits from 0 to 9999, otherwise a
    sign and six digits. *)
Definition isoYear (y : Z) : jstring :=
  if (0 <=? y) && (y <=? 9999) then digits 4 y
  else (if y <? 0 then str "-" else str "+") ++ digits 6 (Z.abs y).

(** [Date.prototype.toISOString] on the date [new Date(v)]:
    [YYYY-MM-DDTHH:mm:ss.sssZ] in UTC, and a [RangeError] ([None]) on
    an invalid date. *)
Definition toISOString (v : Z) : option jstring :=
  t ← TimeClip v;
  Some (isoYear (YearFromTime t) ++ str "-" ++
        digits 2 (MonthFromTime t + 1) ++ str "-" ++
        digits 2 (DateFromTime t) ++ str "T" ++
        digits 2 (HourFromTime t) ++ str ":" ++
        digits 2 (MinFromTime t) ++ str ":" ++
        digits 2 (SecFromTime t) ++ str "." ++
        digits 3 (msFromTime t) ++ str "Z").

(** The two hours of [2 * 60 * 60 * 1000].  Time values and their sums
    with it stay below 2^53, where the arithmetic of doubles is exact. *)
Definition twoHours : Z := 2 * 60 * 60 * 1000.

(** The stamp of the export:
    [iso.replace(/[-:]/g, '').split('.')[0] + 'Z']. *)
Definition icsStamp (iso : jstring) : jstring :=
  fst (split 46%N (replace_dash_colon iso)) ++ str "Z".

(** ** User-visible effects *)

Inductive Effect : Type :=
  | Alert (message : jstring)
  | Download (filename mime content : jstring).

(** ["確定した予定がありません"]: there is no confirmed event. *)
Definition msgNoConfirmed : jstring :=
  [0x78ba; 0x5b9a; 0x3057; 0x305f; 0x4e88; 0x5b9a;
   0x304c; 0x3042; 0x308a; 0x307e; 0x305b; 0x3093]%N.

(** ["追加に失敗: "], ["更新に失敗: "], ["削除に失敗: "]. *)
Definition msgAddFailed : jstring :=
  [0x8ffd; 0x52a0; 0x306b; 0x5931; 0x6557; 0x3a; 0x20]%N.
Definition msgUpdateFailed : jstring :=
  [0x66f4; 0x65b0; 0x306b; 0x5931; 0x6557; 0x3a; 0x20]%N.
Definition msgDeleteFailed : jstring :=
  [0x524a; 0x9664; 0x306b; 0x5931; 0x6557; 0x3a; 0x20]%N.

Definition icsFilename : jstring := str "splatoon-schedule.ics".
Definition icsMime : jstring := str "text/calendar;charset=utf-8".

(** The text of one event and of the whole file, given the stamps. *)
Definition icsEventText (title start end_ : jstring) : jstring :=
  join LF [str "BEGIN:VEVENT";
           str "SUMMARY:" ++ title;
           str "DTSTART:" ++ start;
           str "DTEND:" ++ end_;
           str "END:VEVENT"].

Definition icsContent (icsEvents : jstring) : jstring :=
  (str "BEGIN:VCALENDAR" ++ LF ++ str "VERSION:2.0" ++ LF) ++
  icsEvents ++ (LF ++ str "END:VCALENDAR").

(** ** The local variants

    The in-memory variant and the localStorage variant share this
    logic; an event's id is [Date.now()] and its start a [Date], held
    as its time value (one beyond [maxTime] stands for an invalid
    date). *)
Module Local.

Record Schedule : Type := {
  id : Z;
  date : Z;
  title : jstring;
  votes : Votes;
}.

(** The state hooks [date], [title] and [schedules]. *)
Record AppState : Type := {
  ui_date : Z;
  ui_title : jstring;
  schedules : list Schedule;
}.

(** [addSchedule]; [now] is the value of [Date.now()]. *)
Definition addSchedule (now : Z) (st : AppState) : AppState :=
  let t := trim (ui_title st) in
  if is_empty t then st
  else
    let newSchedule :=
      {| id := now; date := ui_date st; title := t; votes := emptyVotes |} in
    {| ui_date := ui_date st;
       ui_title := [];
       schedules := schedules st ++ [newSchedule] |}.

(** The callback that [toggleVote] maps over the events. *)
Definition toggleOne (scheduleId : Z) (member : Member) (s : Schedule)
  : Schedule :=
  if negb (bool_decide (id s = scheduleId)) then s
  else
    let current := votes s !! member in
    let next := nextVote current in
    {| id := id s; date := date s; title := title s;
       votes := spread_set (votes s) member next |}.

Definition toggleVote (scheduleId : Z) (member : Member) (st : AppState)
  : AppState :=
  {| ui_date := ui_date st;
     ui_title := ui_title st;
     schedules := map (toggleOne scheduleId member) (schedules st) |}.

(** [submittedMap]: the two nested loops over events and members. *)
Definition submittedMap (schedules : list Schedule) : gmap Member bool :=
  foldl (λ acc s,
           foldl (λ acc m,
                    if negb (bool_decide (votes s !! m = Some Vno))
                    then <[m := true]> acc else acc)
                 acc members)
        (list_to_map (map (λ m, (m, false)) members))
        schedules.

(** [members.every((m) => s.votes[m] === "yes")]. *)
Definition allYes (s : Schedule) : bool :=
  forallb (λ m, bool_decide (votes s !! m = Some Vyes)) members.

Definition confirmed (schedules : list Schedule) : list Schedule :=
  List.filter allYes schedules.

(** The callback of [confirmed.map] in [exportICS]; [None] is the
    [RangeError] of [toISOString]. *)
Definition icsEvent (s : Schedule) : option jstring :=
  startIso ← toISOString (date s);
  let start := icsStamp startIso in
  endIso ← toISOString (date s + twoHours);
  let end_ := icsStamp endIso in
  Some (icsEventText (title s) start end_).

(** [exportICS]: the state it leaves and the effects it has, or
    [None] when it throws. *)
Definition exportICS (st : AppState) : option (AppState * list Effect) :=
  let confirmed := confirmed (schedules st) in
  if (length confirmed =? 0)%nat then Some (st, [Alert msgNoConfirmed])
  else
    evs ← mapM icsEvent confirmed;
    let icsEvents := join LF evs in
    Some (st, [Download icsFilename icsMime (icsContent icsEvents)]).

(** The user's actions and the runs of the application from an empty
    collection. *)
Inductive Action : Type :=
  | PickDate (d : Z)
  | TypeTitle (t : jstring)
  | AddSchedule (now : Z)
  | ToggleVote (scheduleId : Z) (member : Member).

Definition step (st : AppState) (a : Action) : AppState :=
  match a with
  | PickDate d =>
      {| ui_date := d; ui_title := ui_title st; schedules := schedules st |}
  | TypeTitle t =>
      {| ui_date := ui_date st; ui_title := t; schedules := schedules st |}
  | AddSchedule now => addSchedule now st
  | ToggleVote i m => toggleVote i m st
  end.

Definition init (today : Z) : AppState :=
  {| ui_date := today; ui_title := []; schedules := [] |}.

Definition run (today : Z) (actions : list Action) : AppState :=
  foldl step (init today) actions.

End Local.

(** ** The shared variant

    The events are rows of the [schedules] table; the application sends
    requests to the store and mirrors the rows from the change feed. *)
Module Shared.

Record Schedule : Type := {
  id : jstring;
  starts_at : jstring;
  title : jstring;
  votes : Votes;
  created_at : option jstring;
}.

Record AppState : Type := {
  ui_date : Z;
  ui_title : jstring;
  schedules : list Schedule;
  ready : bool;
  err : option jstring;
}.

(** What the application asks of the store:
    [insert({...})], [update({ votes }).eq("id", id)] and
    [delete().eq("id", id)]. *)
Inductive Request : Type :=
  | Insert (starts_at title : jstring) (votes : Votes)
  | Update (votes : Votes) (eq_id : jstring)
  | Delete (eq_id : jstring).

(** The change feed: [payload.eventType] with [payload.new], or the
    [id] of [payload.old]. *)
Inductive Payload : Type :=
  | INSERT (row : Schedule)
  | UPDATE (row : Schedule)
  | DELETE (old_id : jstring).

(** [payload.new], the row of an insertion or update. *)
Definition payloadNew (payload : Payload) : option Schedule :=
  match payload with
  | INSERT row | UPDATE row => Some row
  | DELETE _ => None
  end.

(** The updater that the subscription passes to [setSchedules]. *)
Definition onPayload (payload : Payload) (prev : list Schedule)
  : list Schedule :=
  match payload with
  | INSERT row => prev ++ [row]
  | UPDATE row =>
      map (λ x, if bool_decide (id x = id row) then row else x) prev
  | DELETE old_id =>
      List.filter (λ x, negb (bool_decide (id x = old_id))) prev
  end.

Definition receive (payload : Payload) (st : AppState) : AppState :=
  {| ui_date := ui_date st; ui_title := ui_title st;
     schedules := onPayload payload (schedules st);
     ready := ready st; err := err st |}.

(** An alert with the store's error message, if it gave one. *)
Definition alertOn (prefix : jstring) (error : option jstring)
  : list Effect :=
  match error with
  | Some message => [Alert (prefix ++ message)]
  | None => []
  end.

(** [addSchedule], given the store's answer [error] to the request:
    the state it leaves, the requests sent and the effects, or [None]
    when [toISOString] throws. *)
Definition addSchedule (error : option jstring) (st : AppState)
  : option (AppState * list Request * list Effect) :=
  let t := trim (ui_title st) in
  if is_empty t then Some (st, [], [])
  else
    starts_at ← toISOString (ui_date st);
    let request := Insert starts_at t emptyVotes in
    match error with
    | Some _ => Some (st, [request], alertOn msgAddFailed error)
    | None =>
        Some ({| ui_date := ui_date st; ui_title := [];
                 schedules := schedules st;
                 ready := ready st; err := err st |},
              [request], [])
    end.

(** [nextVotes] of [toggleVote]. *)
Definition nextVotes (s : Schedule) (m : Member) : Votes :=
  let next := nextVote (votes s !! m) in
  spread_set (votes s) m next.

Definition toggleVote (error : option jstring) (s : Schedule) (m : Member)
  (st : AppState) : AppState * list Request * list Effect :=
  (st, [Update (nextVotes s m) (id s)], alertOn msgUpdateFailed error).

Definition removeSchedule (error : option jstring) (id : jstring)
  (st : AppState) : AppState * list Request * list Effect :=
  (st, [Delete id], alertOn msgDeleteFailed error).

(** [submittedMap]: a vote counts when it is present and not ["no"]. *)
Definition submittedMap (schedules : list Schedule) : gmap Member bool :=
  foldl (λ acc s,
           foldl (λ acc k,
                    if bool_decide (is_Some (votes s !! k)) &&
                       negb (bool_decide (votes s !! k = Some Vno))
                    then <[k := true]> acc else acc)
                 acc members)
        (list_to_map (map (λ x, (x, false)) members))
        schedules.

(** [members.every((m) => s.votes?.[m] === "yes")]. *)
Definition allYes (s : Schedule) : bool :=
  forallb (λ m, bool_decide (votes s !! m = Some Vyes)) members.

Definition confirmed (schedules : list Schedule) : list Schedule :=
  List.filter allYes schedules.

(** The vote shown for a member: [s.votes?.[m] || "no"]. *)
Definition shownVote (s : Schedule) (m : Member) : Vote :=
  default Vno (votes s !! m).

Section Exporter.

(** The time value of [new Date(text)], [None] for NaN. *)
Variable DateParse : jstring → option Z.

Definition icsEvent (s : Schedule) : option jstring :=
  startIso ← DateParse (starts_at s) ≫= toISOString;
  let start := icsStamp startIso in
  endIso ← DateParse (starts_at s) ≫= (λ t, toISOString (t + twoHours));
  let end_ := icsStamp endIso in
  Some (icsEventText (title s) start end_).

Definition exportICS (st : AppState) : option (AppState * list Effect) :=
  let confirmed := confirmed (schedules st) in
  if (length confirmed =? 0)%nat then Some (st, [Alert msgNoConfirmed])
  else
    evs ← mapM icsEvent confirmed;
    let icsEvents := join LF evs in
    Some (st, [Download icsFilename icsMime (icsContent icsEvents)]).

End Exporter.

End Shared.

(** ** The documented calendar format *)

(** [YYYYMMDDTHHMMSSZ]: the UTC fields of the instant [t], zero padded,
    without punctuation, and a final [Z]. *)
Definition calendarStamp (t : Z) : jstring :=
  digits 4 (YearFromTime t) ++ digits 2 (MonthFromTime t + 1) ++
  digits 2 (DateFromTime t) ++ str "T" ++
  digits 2 (HourFromTime t) ++ digits 2 (MinFromTime t) ++
  digits 2 (SecFromTime t) ++ str "Z".

(** One component record: the title verbatim, the start stamp and the
    stamp two hours later. *)
Definition calendarEvent (ev : jstring * Z) : jstring :=
  str "BEGIN:VEVENT" ++ LF ++
  str "SUMMARY:" ++ ev.1 ++ LF ++
  str "DTSTART:" ++ calendarStamp ev.2 ++ LF ++
  str "DTEND:" ++ calendarStamp (ev.2 + 2 * msPerHour) ++ LF ++
  str "END:VEVENT".

(** The container around the records, one per line group. *)
Definition calendarText (evs : list (jstring * Z)) : jstring :=
  str "BEGIN:VCALENDAR" ++ LF ++ str "VERSION:2.0" ++ LF ++
  join LF (map calendarEvent evs) ++ LF ++ str "END:VCALENDAR".

(** The instants whose year has four digits, from 0000-01-01T00:00:00Z
    to 9999-12-31T23:59:59.999Z. *)
Definition fourDigitYear (t : Z) : Prop :=
  TimeFromYear 0 ≤ t < TimeFromYear 10000.

(** A string of the shape [YYYYMMDDTHHMMSSZ]. *)
Definition is_digit (c : N) : bool := ((48 <=? c) && (c <=? 57))%N.

Definition is_calendarStamp (s : jstring) : bool :=
  match s with
  | [y1; y2; y3; y4; m1; m2; d1; d2; ct; h1; h2; n1; n2; s1; s2; cz] =>
      forallb is_digit [y1; y2; y3; y4; m1; m2; d1; d2; h1; h2; n1; n2; s1; s2]
      && (ct =? 84)%N && (cz =? 90)%N
  | _ => false
  end.

(** ** The documented notions of the evaluator *)

(** The full member set, as a set of keys. *)
Definition memberSet : gset Member := list_to_set members.

(** Every member's vote is exactly ["yes"]. *)
Definition everyVoteYes (vs : Votes) : Prop :=
  ∀ m : Member, vs !! m = Some Vyes.

#[global] Instance everyVoteYes_dec (vs : Votes) : Decision (everyVoteYes vs).
Proof. unfold everyVoteYes. apply _. Defined.

(** ** Sample data *)

(** Votes that are all ["yes"]. *)
Definition votesAllYes : Votes :=
  list_to_map (map (λ m, (m, Vyes)) members).

(** The title ["21:00集合"]. *)
Definition sampleTitle : jstring := str "21:00" ++ [0x96c6; 0x5408]%N.

(** 2025-01-01T12:00:00.000Z and 10000-01-01T00:00:00.000Z. *)
Definition noon2025 : Z := 1735732800000.
Definition year10000 : Z := 253402300800000.

Definition sampleLocal (date : Z) : Local.AppState :=
  {| Local.ui_date := date; Local.ui_title := [];
     Local.schedules :=
       [ {| Local.id := 1; Local.date := date; Local.title := sampleTitle;
            Local.votes := votesAllYes |} ] |}.

Definition sampleRow (votes : Votes) : Shared.Schedule :=
  {| Shared.id := str "a1"; Shared.starts_at := str "2025-01-01T12:00:00+00:00";
     Shared.title := sampleTitle; Shared.votes := votes;
     Shared.created_at := None |}.

Definition sampleShared (rows : list Shared.Schedule) : Shared.AppState :=
  {| Shared.ui_date := noon2025; Shared.ui_title := str " ";
     Shared.schedules := rows; Shared.ready := true; Shared.err := None |}.

(** The text of a file with the one event [sampleTitle] and the given
    stamps. *)
Definition sampleText (start end_ : string) : jstring :=
  str "BEGIN:VCALENDAR" ++ LF ++ str "VERSION:2.0" ++ LF ++
  str "BEGIN:VEVENT" ++ LF ++
  str "SUMMARY:" ++ sampleTitle ++ LF ++
  str "DTSTART:" ++ str start ++ LF ++
  str "DTEND:" ++ str end_ ++ LF ++
  str "END:VEVENT" ++ LF ++ str "END:VCALENDAR".

Definition sampleActions : list Local.Action :=
  [Local.TypeTitle sampleTitle; Local.AddSchedule 7;
   Local.ToggleVote 7 Rino; Local.ToggleVote 7 Rino].

Definition sampleToggled : Local.Schedule :=
  {| Local.id := 7; Local.date := noon2025; Local.title := sampleTitle;
     Local.votes := <[Rino := Vyes]> emptyVotes |}.

Definition sampleBlank : Local.AppState :=
  {| Local.ui_date := noon2025; Local.ui_title := [32; 12288; 9]%N;
     Local.schedules := [] |}.

Definition sampleTitled : Local.AppState :=
  {| Local.ui_date := noon2025;
     Local.ui_title := [32]%N ++ sampleTitle ++ [12288]%N;
     Local.schedules := [] |}.

Definition sampleRowB : Shared.Schedule :=
  {| Shared.id := str "b2"; Shared.starts_at := str "2025-01-02T12:00:00+00:00";
     Shared.title := str "B"; Shared.votes := emptyVotes;
     Shared.created_at := None |}.

(** A row that starts at [year10000]. *)
Definition sampleRowFar : Shared.Schedule :=
  {| Shared.id := str "c3";
     Shared.starts_at := str "+010000-01-01T00:00:00.000Z";
     Shared.title := sampleTitle; Shared.votes := votesAllYes;
     Shared.created_at := None |}.

(** ** Further notions *)

(** The values of [Date.now()] that a run passes to [addSchedule]. *)
Definition addTimes (actions : list Local.Action) : list Z :=
  omap (λ a, match a with Local.AddSchedule now => Some now | _ => None end)
       actions.

(** The year of the export's stamp: the hyphen of a negative year is
    deleted with the others, the plus sign of a large year stays. *)
Definition stampYear (y : Z) : jstring :=
  if (0 <=? y) && (y <=? 9999) then digits 4 y
  else if y <? 0 then digits 6 (Z.abs y)
  else str "+" ++ digits 6 (Z.abs y).

(** The stamp that the export gives the date [new Date(t)]. *)
Definition exportStamp (t : Z) : jstring :=
  stampYear (YearFromTime t) ++ digits 2 (MonthFromTime t + 1) ++
  digits 2 (DateFromTime t) ++ str "T" ++
  digits 2 (HourFromTime t) ++ digits 2 (MinFromTime t) ++
  digits 2 (SecFromTime t) ++ str "Z".

(** The number of line feeds of a text. *)
Definition countLF (s : jstring) : nat :=
  length (List.filter (λ c, (c =? 10)%N) s).

(** An event with all votes "yes", and one without votes. *)
Definition sampleEvent : Local.Schedule :=
  {| Local.id := 1; Local.date := noon2025; Local.title := sampleTitle;
     Local.votes := votesAllYes |}.

Definition sampleNoVotes : Local.Schedule :=
  {| Local.id := 2; Local.date := noon2025; Local.title := sampleTitle;
     Local.votes := ∅ |}.

(** ** The store's answer to an update *)


(** Three events with the ids 1, 2 and 3. *)
Definition sampleThird : Local.Schedule :=
  {| Local.id := 3; Local.date := noon2025; Local.title := str "C";
     Local.votes := emptyVotes |}.

Definition sampleThree : Local.AppState :=
  {| Local.ui_date := noon2025; Local.ui_title := [];
     Local.schedules := [sampleEvent; sampleNoVotes; sampleThird] |}.

(** A run with two adds at different times, and one with two adds
    within the same millisecond. *)
Definition sampleTwoAdds : list Local.Action :=
  [Local.TypeTitle sampleTitle; Local.AddSchedule 7;
   Local.TypeTitle (str "B"); Local.AddSchedule 8;
   Local.ToggleVote 7 Rino].




(** * Properties *)

(** ** The model of the time fields *)

(** Division and remainder by constants, then linear arithmetic. *)
Ltac div_lia := Z.div_mod_to_equations; lia.

(** [DayFromYear] counts the days of the years before. *)
Lemma DayFromYear_succ (y : Z) :
  DayFromYear (y + 1) = DayFromYear y + DaysInYear y.
Proof.
  unfold DayFromYear, DaysInYear.
  destruct (Z.eqb_spec (y mod 4) 0) as [H4|H4];
  destruct (Z.eqb_spec (y mod 100) 0) as [H100|H100];
  destruct (Z.eqb_spec (y mod 400) 0) as [H400|H400]; cbn [negb].
  all: div_lia.
Qed.

Lemma DayFromYear_mono (y y' : Z) : y ≤ y' → DayFromYear y ≤ DayFromYear y'.
Proof. unfold DayFromYear. intros. div_lia. Qed.

Lemma TimeFromYear_mono (y y' : Z) : y ≤ y' → TimeFromYear y ≤ TimeFromYear y'.
Proof.
  intros H%DayFromYear_mono. unfold TimeFromYear, msPerDay. lia.
Qed.

Lemma year_search_spec (fuel : nat) (t y : Z) :
  TimeFromYear y ≤ t → t < TimeFromYear (y + Z.of_nat fuel) →
  TimeFromYear (year_search fuel t y) ≤ t < TimeFromYear (year_search fuel t y + 1).
Proof.
  revert y. induction fuel as [|fuel IH]; intros y Hlo Hhi.
  - replace (y + Z.of_nat 0) with y in Hhi by lia. lia.
  - cbn [year_search]. destruct (Z.leb_spec (TimeFromYear (y + 1)) t) as [Hle|Hlt].
    + apply IH; [done|]. by replace (y + 1 + Z.of_nat fuel) with (y + Z.of_nat (S fuel)) by lia.
    + cbn [year_search]. lia.
Qed.

Lemma YearFromTime_spec (t : Z) :
  TimeFromYear (YearFromTime t) ≤ t < TimeFromYear (YearFromTime t + 1).
Proof.
  unfold YearFromTime. apply year_search_spec.
  - unfold TimeFromYear, DayFromYear, Day, msPerDay.
    destruct (Z.leb_spec 0 (t / 86400000)); div_lia.
  - rewrite Z2Nat.id by div_lia.
    unfold TimeFromYear, DayFromYear, Day, msPerDay.
    destruct (Z.leb_spec 0 (t / 86400000)); div_lia.
Qed.

Lemma fourDigitYear_year (t : Z) :
  fourDigitYear t → 0 ≤ YearFromTime t ≤ 9999.
Proof.
  intros [Hlo Hhi]. pose proof (YearFromTime_spec t) as [Hy Hy'].
  split.
  - destruct (Z.le_gt_cases 0 (YearFromTime t)) as [|Hneg]; [done|].
    pose proof (TimeFromYear_mono (YearFromTime t + 1) 0). lia.
  - destruct (Z.le_gt_cases (YearFromTime t) 9999) as [|Hbig]; [done|].
    pose proof (TimeFromYear_mono 10000 (YearFromTime t)). lia.
Qed.

Lemma year_fourDigitYear (t : Z) :
  0 ≤ YearFromTime t ≤ 9999 → fourDigitYear t.
Proof.
  intros [Hlo Hhi]. pose proof (YearFromTime_spec t) as [Hy Hy'].
  pose proof (TimeFromYear_mono 0 (YearFromTime t)).
  pose proof (TimeFromYear_mono (YearFromTime t + 1) 10000).
  unfold fourDigitYear. lia.
Qed.

Lemma fourDigitYear_TimeClip (t : Z) : fourDigitYear t → TimeClip t = Some t.
Proof.
  unfold fourDigitYear, TimeClip. intros [Hlo Hhi].
  change (TimeFromYear 0) with (-62167219200000) in Hlo.
  change (TimeFromYear 10000) with 253402300800000 in Hhi.
  unfold maxTime. destruct (Z.leb_spec (Z.abs t) 8640000000000000); [done|lia].
Qed.

(** *** Digits and the string operations of the stamp *)

Lemma digit_is_digit (n : Z) : is_digit (Z.to_N (48 + n mod 10)) = true.
Proof.
  unfold is_digit. pose proof (Z.mod_pos_bound n 10).
  apply andb_true_iff. split; apply N.leb_le; lia.
Qed.

Lemma digits_is_digit (k : nat) (n : Z) :
  Forall (λ c, is_digit c = true) (digits k n).
Proof.
  revert n. induction k as [|k IH]; intros n; cbn [digits]; [constructor|].
  apply Forall_app. split; [apply IH|].
  constructor; [apply digit_is_digit|constructor].
Qed.

Lemma is_digit_not_dash_colon (c : N) :
  is_digit c = true → is_dash_or_colon c = false.
Proof.
  unfold is_digit, is_dash_or_colon. intros [H1 H2]%andb_true_iff.
  apply N.leb_le in H1, H2. apply orb_false_iff. split; apply N.eqb_neq; lia.
Qed.

Lemma is_digit_not_dot (c : N) : is_digit c = true → (c =? 46)%N = false.
Proof.
  unfold is_digit. intros [H1 H2]%andb_true_iff.
  apply N.leb_le in H1, H2. apply N.eqb_neq. lia.
Qed.

Lemma replace_dash_colon_app (a b : jstring) :
  replace_dash_colon (a ++ b) = replace_dash_colon a ++ replace_dash_colon b.
Proof. apply List.filter_app. Qed.

Lemma replace_dash_colon_digit (l : jstring) :
  Forall (λ c, is_digit c = true) l → replace_dash_colon l = l.
Proof.
  induction 1 as [|c l Hc _ IH]; [done|].
  unfold replace_dash_colon in *. cbn [List.filter].
  by rewrite (is_digit_not_dash_colon c Hc), IH.
Qed.

Lemma split_dot_digit (l rest : jstring) :
  Forall (λ c, is_digit c = true) l →
  (split 46 (l ++ rest)).1 = l ++ (split 46 rest).1.
Proof.
  induction 1 as [|c l Hc _ IH]; [done|].
  cbn [app split]. destruct (split 46 (l ++ rest)) as [h t] eqn:E.
  cbn [fst] in IH. by rewrite (is_digit_not_dot c Hc), <- IH.
Qed.

Lemma split_dot_other (c : N) (rest : jstring) :
  c ≠ 46%N → (split 46 (c :: rest)).1 = c :: (split 46 rest).1.
Proof.
  intros Hc. cbn [split]. destruct (split 46 rest) as [h t].
  by apply N.eqb_neq in Hc as ->.
Qed.

Lemma split_dot_stop (rest : jstring) : (split 46 (46%N :: rest)).1 = [].
Proof. cbn [split]. by destruct (split 46 rest). Qed.

(** The pipeline [replace], [split], [+ "Z"] on a string of the shape
    of [toISOString]. *)
Lemma icsStamp_shape (y mo d h mi s ms : jstring) :
  Forall (λ c, is_digit c = true) y → Forall (λ c, is_digit c = true) mo →
  Forall (λ c, is_digit c = true) d → Forall (λ c, is_digit c = true) h →
  Forall (λ c, is_digit c = true) mi → Forall (λ c, is_digit c = true) s →
  icsStamp (y ++ [45%N] ++ mo ++ [45%N] ++ d ++ [84%N] ++
            h ++ [58%N] ++ mi ++ [58%N] ++ s ++ [46%N] ++ ms ++ [90%N])
  = y ++ mo ++ d ++ [84%N] ++ h ++ mi ++ s ++ [90%N].
Proof.
  intros Hy Hmo Hd Hh Hmi Hs. unfold icsStamp.
  rewrite !replace_dash_colon_app.
  rewrite (replace_dash_colon_digit y), (replace_dash_colon_digit mo),
    (replace_dash_colon_digit d), (replace_dash_colon_digit h),
    (replace_dash_colon_digit mi), (replace_dash_colon_digit s) by done.
  change (replace_dash_colon [45%N]) with (@nil N).
  change (replace_dash_colon [58%N]) with (@nil N).
  change (replace_dash_colon [46%N]) with [46%N].
  change (replace_dash_colon [84%N]) with [84%N].
  rewrite !app_nil_l.
  rewrite !split_dot_digit by done.
  change ([84%N] ++ ?x) with (84%N :: x).
  rewrite split_dot_other by done.
  rewrite !split_dot_digit by done.
  change ([46%N] ++ ?x) with (46%N :: x).
  rewrite split_dot_stop, app_nil_r.
  change (str "Z") with [90%N].
  rewrite <- !app_assoc. cbn [app]. by rewrite <- !app_assoc.
Qed.

(** The documented stamp has sixteen characters: eight digits, [T], six
    digits, [Z]. *)
Lemma calendarStamp_shape (t : Z) : is_calendarStamp (calendarStamp t) = true.
Proof.
  unfold calendarStamp. cbn [digits].
  change (str "T") with [84%N]. change (str "Z") with [90%N]. cbn [app].
  unfold is_calendarStamp. cbn [forallb]. by rewrite !digit_is_digit.
Qed.

(** The export's stamp of an instant with a four-digit year is the
    documented one. *)
Lemma icsStamp_fourDigitYear (t : Z) :
  fourDigitYear t →
  icsStamp <$> toISOString t = Some (calendarStamp t).
Proof.
  intros Ht. unfold toISOString.
  rewrite (fourDigitYear_TimeClip t Ht).
  cbn [mbind option_bind fmap option_fmap option_map]. f_equal.
  unfold isoYear.
  destruct (fourDigitYear_year t Ht) as [Hy0 Hy1].
  apply Z.leb_le in Hy0, Hy1. rewrite Hy0, Hy1. cbn [andb].
  unfold calendarStamp.
  apply icsStamp_shape; apply digits_is_digit.
Qed.

(** ** The vote cycle *)

Lemma nextVote_is_Some (current : option Vote) : is_Some (nextVote current).
Proof. destruct current as [[]|]; vm_compute; eauto. Qed.

(** A missing vote is toggled to no. *)
Lemma nextVote_undefined : nextVote None = Some Vno.
Proof. reflexivity. Qed.

(** C2: the step advances one position along no -> if (maybe) -> yes -> no,
    wrapping around, and three steps from any vote return to it. *)
Theorem C2_vote_cycle :
  nextVote (Some Vno) = Some Vif ∧
  nextVote (Some Vif) = Some Vyes ∧
  nextVote (Some Vyes) = Some Vno ∧
  ∀ v : Vote, nextVote (nextVote (nextVote (Some v))) = Some v.
Proof.
  repeat split. by intros [].
Qed.

(** ** Members and votes *)

Lemma elem_of_members (m : Member) : m ∈ members.
Proof. destruct m; by apply (bool_decide_unpack _). Qed.

Lemma elem_of_memberSet (m : Member) : m ∈ memberSet.
Proof. apply elem_of_list_to_set, elem_of_members. Qed.

Lemma emptyVotes_lookup (m : Member) : emptyVotes !! m = Some Vno.
Proof. by destruct m. Qed.

Lemma dom_emptyVotes : dom emptyVotes = memberSet.
Proof.
  apply set_eq. intros m. rewrite elem_of_dom, emptyVotes_lookup.
  split; [intros _; apply elem_of_memberSet | eauto].
Qed.

Lemma spread_set_lookup (vs : Votes) (m : Member) (next : option Vote) :
  spread_set vs m next !! m = next.
Proof. unfold spread_set. apply lookup_partial_alter_eq. Qed.

Lemma spread_set_lookup_ne (vs : Votes) (m m' : Member) (next : option Vote) :
  m' ≠ m → spread_set vs m next !! m' = vs !! m'.
Proof. intros Hne. unfold spread_set. by apply lookup_partial_alter_ne. Qed.

Lemma spread_set_nextVote_dom (vs : Votes) (m : Member) :
  dom vs = memberSet → dom (spread_set vs m (nextVote (vs !! m))) = memberSet.
Proof.
  intros Hdom. destruct (nextVote_is_Some (vs !! m)) as [v ->].
  unfold spread_set. change (partial_alter (λ _, Some v) m vs) with (<[m := v]> vs).
  rewrite dom_insert_L, Hdom. apply set_eq. intros x.
  rewrite elem_of_union, elem_of_singleton.
  split; [intros _; apply elem_of_memberSet | auto].
Qed.

Lemma allYes_everyVoteYes (vs : Votes) :
  forallb (λ m, bool_decide (vs !! m = Some Vyes)) members = true ↔ everyVoteYes vs.
Proof.
  rewrite forallb_forall. unfold everyVoteYes. split.
  - intros H m. eapply bool_decide_eq_true_1, H, list_elem_of_In, elem_of_members.
  - intros H m _. apply bool_decide_eq_true_2, H.
Qed.

Lemma List_filter_decide {A} (f : A → bool) (P : A → Prop) `{∀ x, Decision (P x)}
    (l : list A) :
  (∀ x, f x = true ↔ P x) → List.filter f l = filter P l.
Proof.
  intros Hf. induction l as [|x l IH]; [done|]. cbn [List.filter].
  rewrite filter_cons, IH. destruct (decide (P x)) as [HP|HP].
  - by apply Hf in HP as ->.
  - destruct (f x) eqn:E; [by apply Hf in E|done].
Qed.

(** ** Confirmed events *)

(** C1: the confirmed events are the events in which every member's
    vote is yes, filtered in the order of the collection; an empty
    collection has no confirmed event. *)
Theorem C1_confirmed_filter :
  (∀ l : list Local.Schedule,
     Local.confirmed l = filter (λ s, everyVoteYes (Local.votes s)) l ∧
     sublist (Local.confirmed l) l ∧
     ∀ s, s ∈ Local.confirmed l ↔ s ∈ l ∧ everyVoteYes (Local.votes s)) ∧
  (∀ l : list Shared.Schedule,
     Shared.confirmed l = filter (λ s, everyVoteYes (Shared.votes s)) l ∧
     sublist (Shared.confirmed l) l ∧
     ∀ s, s ∈ Shared.confirmed l ↔ s ∈ l ∧ everyVoteYes (Shared.votes s)) ∧
  Local.confirmed [] = [] ∧ Shared.confirmed [] = [].
Proof.
  split; [|split; [|done]].
  - intros l.
    assert (Local.confirmed l = filter (λ s, everyVoteYes (Local.votes s)) l) as ->.
    { apply List_filter_decide. intros s. apply allYes_everyVoteYes. }
    split; [done|]. split; [apply sublist_filter|].
    intros s. rewrite list_elem_of_filter. tauto.
  - intros l.
    assert (Shared.confirmed l = filter (λ s, everyVoteYes (Shared.votes s)) l) as ->.
    { apply List_filter_decide. intros s. apply allYes_everyVoteYes. }
    split; [done|]. split; [apply sublist_filter|].
    intros s. rewrite list_elem_of_filter. tauto.
Qed.

(** ** The key set of the votes *)

Lemma Local_toggleOne_dom (i : Z) (m : Member) (s : Local.Schedule) :
  dom (Local.votes s) = memberSet →
  dom (Local.votes (Local.toggleOne i m s)) = memberSet.
Proof.
  intros Hdom. unfold Local.toggleOne.
  destruct (negb _); [done|]. by apply spread_set_nextVote_dom.
Qed.

Lemma Local_step_fullVotes (st : Local.AppState) (a : Local.Action) :
  Forall (λ s, dom (Local.votes s) = memberSet) (Local.schedules st) →
  Forall (λ s, dom (Local.votes s) = memberSet)
         (Local.schedules (Local.step st a)).
Proof.
  intros Hst. destruct a as [d|t|now|i m]; cbn [Local.step Local.schedules]; try done.
  - unfold Local.addSchedule. destruct (is_empty _); [done|].
    cbn [Local.schedules]. apply Forall_app. split; [done|].
    constructor; [apply dom_emptyVotes|constructor].
  - apply Forall_fmap. eapply Forall_impl; [exact Hst|].
    intros s Hs. by apply Local_toggleOne_dom.
Qed.

Lemma Local_run_fullVotes (today : Z) (actions : list Local.Action) :
  Forall (λ s, dom (Local.votes s) = memberSet)
         (Local.schedules (Local.run today actions)).
Proof.
  unfold Local.run.
  induction actions as [|a actions IH] using rev_ind; [constructor|].
  rewrite foldl_app. cbn [foldl]. by apply Local_step_fullVotes.
Qed.

Lemma Shared_onPayload_fullVotes (payload : Shared.Payload)
    (prev : list Shared.Schedule) :
  (∀ row, Shared.payloadNew payload = Some row →
          dom (Shared.votes row) = memberSet) →
  Forall (λ s, dom (Shared.votes s) = memberSet) prev →
  Forall (λ s, dom (Shared.votes s) = memberSet)
         (Shared.onPayload payload prev).
Proof.
  intros Hrow Hprev. destruct payload as [row|row|old_id]; cbn [Shared.onPayload].
  - apply Forall_app. split; [done|]. constructor; [by apply Hrow|constructor].
  - apply Forall_fmap. eapply Forall_impl; [exact Hprev|].
    intros x Hx. cbn. destruct (bool_decide _); [by apply Hrow|done].
  - apply Forall_forall. intros x [Hx _]%list_elem_of_In%filter_In.
    rewrite Forall_forall in Hprev. by apply Hprev, list_elem_of_In.
Qed.

(** C3: after creation and any number of toggles, the key set of every
    event's votes is the full member set.  In the shared variant the
    votes sent to the store on creation and on a toggle have that key
    set, and the mirror keeps it under the store's notifications of
    such rows. *)
Theorem C3_votes_keys_full :
  (∀ (today : Z) (actions : list Local.Action) (s : Local.Schedule),
     s ∈ Local.schedules (Local.run today actions) →
     dom (Local.votes s) = memberSet) ∧
  dom emptyVotes = memberSet ∧
  (∀ (s : Shared.Schedule) (m : Member),
     dom (Shared.votes s) = memberSet →
     dom (Shared.nextVotes s m) = memberSet) ∧
  (∀ (payload : Shared.Payload) (prev : list Shared.Schedule),
     (∀ row, Shared.payloadNew payload = Some row →
             dom (Shared.votes row) = memberSet) →
     Forall (λ s, dom (Shared.votes s) = memberSet) prev →
     Forall (λ s, dom (Shared.votes s) = memberSet)
            (Shared.onPayload payload prev)).
Proof.
  split; [|split; [|split]].
  - intros today actions s Hs.
    pose proof (Local_run_fullVotes today actions) as H.
    rewrite Forall_forall in H. by apply H.
  - apply dom_emptyVotes.
  - intros s m Hdom. by apply spread_set_nextVote_dom.
  - apply Shared_onPayload_fullVotes.
Qed.

(** ** Responded flags *)

(** The inner loop: the members that satisfy [c] are set, the others
    keep their flag. *)
Lemma mark_members_lookup (c : Member → bool) (ms : list Member)
    (acc : gmap Member bool) (m : Member) :
  foldl (λ acc k, if c k then <[k := true]> acc else acc) acc ms !! m
  = if c m && bool_decide (m ∈ ms) then Some true else acc !! m.
Proof.
  revert acc. induction ms as [|k ms IH]; intros acc; cbn [foldl].
  - by rewrite andb_false_r.
  - rewrite IH. destruct (decide (m = k)) as [->|Hne].
    + rewrite (bool_decide_eq_true_2 (k ∈ k :: ms)) by apply list_elem_of_here.
      rewrite andb_true_r. destruct (c k) eqn:Ec.
      * rewrite lookup_insert_eq. by destruct (_ && _).
      * done.
    + rewrite (bool_decide_ext (m ∈ k :: ms) (m ∈ ms))
        by (rewrite elem_of_cons; intuition congruence).
      destruct (c m && _); [done|].
      destruct (c k); [by rewrite lookup_insert_ne|done].
Qed.

(** The outer loop: a flag is set as soon as one event satisfies the
    test for the member. *)
Lemma mark_events_lookup {S} (c : S → Member → bool) (l : list S)
    (acc : gmap Member bool) (m : Member) :
  foldl (λ acc s, foldl (λ acc k, if c s k then <[k := true]> acc else acc)
                        acc members) acc l !! m
  = if existsb (λ s, c s m) l then Some true else acc !! m.
Proof.
  revert acc. induction l as [|s l IH]; intros acc; cbn [foldl existsb]; [done|].
  rewrite IH, (mark_members_lookup (c s)).
  rewrite (bool_decide_eq_true_2 _ (elem_of_members m)), andb_true_r.
  by destruct (c s m), (existsb _ l).
Qed.

Lemma noFlags_lookup (m : Member) :
  (list_to_map (map (λ x, (x, false)) members) : gmap Member bool) !! m
  = Some false.
Proof. by destruct m. Qed.

Lemma Local_submittedMap_lookup (l : list Local.Schedule) (m : Member) :
  Local.submittedMap l !! m
  = Some (existsb (λ s, negb (bool_decide (Local.votes s !! m = Some Vno))) l).
Proof.
  unfold Local.submittedMap.
  rewrite (mark_events_lookup
             (λ s k, negb (bool_decide (Local.votes s !! k = Some Vno)))).
  rewrite noFlags_lookup. by destruct (existsb _ l).
Qed.

Lemma Shared_submittedMap_lookup (l : list Shared.Schedule) (m : Member) :
  Shared.submittedMap l !! m
  = Some (existsb (λ s, negb (bool_decide (Shared.shownVote s m = Vno))) l).
Proof.
  unfold Shared.submittedMap.
  rewrite (mark_events_lookup
             (λ s k, bool_decide (is_Some (Shared.votes s !! k)) &&
                     negb (bool_decide (Shared.votes s !! k = Some Vno)))).
  rewrite noFlags_lookup.
  assert (∀ s, bool_decide (is_Some (Shared.votes s !! m)) &&
               negb (bool_decide (Shared.votes s !! m = Some Vno))
               = negb (bool_decide (Shared.shownVote s m = Vno))) as Heq.
  { intros s. unfold Shared.shownVote.
    destruct (Shared.votes s !! m) as [[]|]; done. }
  assert (existsb (λ s, bool_decide (is_Some (Shared.votes s !! m)) &&
                        negb (bool_decide (Shared.votes s !! m = Some Vno))) l
          = existsb (λ s, negb (bool_decide (Shared.shownVote s m = Vno))) l) as ->.
  { induction l as [|s l IH]; [done|]. cbn [existsb]. by rewrite Heq, IH. }
  by destruct (existsb _ l).
Qed.

(** C4: a member's responded flag is true exactly when some event has a
    vote of that member other than no, and false otherwise, in
    particular for an empty collection and when all votes are no. *)
Theorem C4_responded_flag :
  (∀ (l : list Local.Schedule) (m : Member),
     (Local.submittedMap l !! m = Some true ↔
        ∃ s, s ∈ l ∧ Local.votes s !! m ≠ Some Vno) ∧
     (Local.submittedMap l !! m = Some false ↔
        ∀ s, s ∈ l → Local.votes s !! m = Some Vno)) ∧
  (∀ (l : list Shared.Schedule) (m : Member),
     (Shared.submittedMap l !! m = Some true ↔
        ∃ s, s ∈ l ∧ Shared.shownVote s m ≠ Vno) ∧
     (Shared.submittedMap l !! m = Some false ↔
        ∀ s, s ∈ l → Shared.shownVote s m = Vno)) ∧
  (∀ m, Local.submittedMap [] !! m = Some false) ∧
  (∀ m, Shared.submittedMap [] !! m = Some false).
Proof.
  assert (∀ {S} (P : S → Prop) `{∀ s, Decision (P s)} (l : list S),
            (existsb (λ s, negb (bool_decide (P s))) l = true ↔
               ∃ s, s ∈ l ∧ ¬ P s) ∧
            (existsb (λ s, negb (bool_decide (P s))) l = false ↔
               ∀ s, s ∈ l → P s)) as Hex.
  { intros S P ? l. 
    assert (existsb (λ s, negb (bool_decide (P s))) l = true ↔
               ∃ s, s ∈ l ∧ ¬ P s) as Ht.
    { rewrite existsb_exists. split; intros (s & Hs & HP); exists s.
      - apply list_elem_of_In in Hs. split; [done|].
        by apply negb_true_iff, bool_decide_eq_false_1 in HP.
      - apply list_elem_of_In in Hs. split; [done|].
        by apply negb_true_iff, bool_decide_eq_false_2. }
    split; [done|]. rewrite <- not_true_iff_false, Ht. split.
    - intros Hno s Hs. destruct (decide (P s)); [done|]. destruct Hno; eauto.
    - intros Hall (s & Hs & HP). by apply HP, Hall. }
  split; [|split; [|split]].
  - intros l m. rewrite Local_submittedMap_lookup.
    destruct (Hex _ (λ s, Local.votes s !! m = Some Vno) _ l) as [Ht Hf].
    rewrite <- Ht, <- Hf. split; split; congruence.
  - intros l m. rewrite Shared_submittedMap_lookup.
    destruct (Hex _ (λ s, Shared.shownVote s m = Vno) _ l) as [Ht Hf].
    rewrite <- Ht, <- Hf. split; split; congruence.
  - intros m. by rewrite Local_submittedMap_lookup.
  - intros m. by rewrite Shared_submittedMap_lookup.
Qed.

(** ** Creation *)

Lemma trimStart_nil (s : jstring) :
  trimStart s = [] ↔ Forall (λ c, is_js_space c = true) s.
Proof.
  induction s as [|c s IH]; cbn [trimStart].
  - split; [constructor|done].
  - destruct (is_js_space c) eqn:Ec.
    + rewrite IH. split; [by constructor|by inversion 1].
    + split; [done|]. inversion 1; congruence.
Qed.

Lemma trimStart_head (s r : jstring) (c : N) :
  trimStart s = c :: r → is_js_space c = false.
Proof.
  induction s as [|c' s IH]; cbn [trimStart]; [done|].
  destruct (is_js_space c') eqn:Ec; [done|]. congruence.
Qed.

(** A title is empty after trimming exactly when it consists of white
    space only. *)
Lemma trim_nil (s : jstring) :
  trim s = [] ↔ Forall (λ c, is_js_space c = true) s.
Proof.
  unfold trim, trimEnd. split.
  - intros H. apply (f_equal reverse) in H. rewrite reverse_involutive in H.
    change (reverse []) with (@nil N) in H.
    apply trimStart_nil in H. rewrite Forall_reverse in H.
    apply trimStart_nil. destruct (trimStart s) as [|c r] eqn:E; [done|].
    apply trimStart_head in E. apply Forall_cons_1 in H as [Hc _]. congruence.
  - intros H. apply trimStart_nil in H. by rewrite H.
Qed.

(** C6: a title that is empty after trimming adds nothing and leaves the
    collection as it is; any other title adds exactly one event, at the
    end, whose votes are no for every member. *)
Theorem C6_addSchedule :
  (∀ (now : Z) (st : Local.AppState),
     (trim (Local.ui_title st) = [] → Local.addSchedule now st = st) ∧
     (trim (Local.ui_title st) ≠ [] →
        ∃ new, Local.schedules (Local.addSchedule now st)
               = Local.schedules st ++ [new] ∧
               Local.id new = now ∧
               Local.title new = trim (Local.ui_title st) ∧
               Local.date new = Local.ui_date st ∧
               ∀ m, Local.votes new !! m = Some Vno)) ∧
  (∀ (error : option jstring) (st : Shared.AppState),
     (trim (Shared.ui_title st) = [] →
        Shared.addSchedule error st = Some (st, [], [])) ∧
     (trim (Shared.ui_title st) ≠ [] →
        ∀ iso, toISOString (Shared.ui_date st) = Some iso →
        ∃ st' votes effects,
          Shared.addSchedule error st
          = Some (st', [Shared.Insert iso (trim (Shared.ui_title st)) votes],
                  effects) ∧
          Shared.schedules st' = Shared.schedules st ∧
          ∀ m, votes !! m = Some Vno)) ∧
  (∀ (row : Shared.Schedule) (prev : list Shared.Schedule),
     Shared.onPayload (Shared.INSERT row) prev = prev ++ [row]).
Proof.
  split; [|split; [|done]].
  - intros now st. unfold Local.addSchedule. split.
    + by intros ->.
    + intros Hne. destruct (trim (Local.ui_title st)) as [|c t] eqn:E; [done|].
      cbn [is_empty]. eexists. cbn [Local.schedules].
      split; [done|]. repeat split. apply emptyVotes_lookup.
  - intros error st. unfold Shared.addSchedule. split.
    + by intros ->.
    + intros Hne iso Hiso.
      destruct (trim (Shared.ui_title st)) as [|c t] eqn:E; [done|].
      cbn [is_empty]. rewrite Hiso. cbn [mbind option_bind].
      destruct error as [message|]; do 3 eexists;
        (split; [done|]); (split; [done|]); apply emptyVotes_lookup.
Qed.

(** ** Toggling a vote *)

Lemma Local_toggleOne_other (i : Z) (m : Member) (s : Local.Schedule) :
  Local.id s ≠ i → Local.toggleOne i m s = s.
Proof.
  intros Hne. unfold Local.toggleOne. by rewrite bool_decide_eq_false_2.
Qed.


(** ** Deleting *)

Lemma filter_all {A} (P : A → Prop) `{∀ x, Decision (P x)} (l : list A) :
  Forall P l → filter P l = l.
Proof.
  induction 1 as [|x l Hx _ IH]; [done|]. by rewrite filter_cons_True, IH.
Qed.

Lemma onPayload_DELETE_decide (old_id : jstring) (prev : list Shared.Schedule) :
  Shared.onPayload (Shared.DELETE old_id) prev
  = filter (λ x, Shared.id x ≠ old_id) prev.
Proof.
  cbn [Shared.onPayload]. apply List_filter_decide. intros x.
  rewrite negb_true_iff, bool_decide_eq_false. done.
Qed.

(** C9: a delete sends the store the id; the deletion it reports
    removes the events with that id, and only them: the others stay as
    they are and in their order. *)
Theorem C9_delete_frame :
  (∀ (error : option jstring) (id : jstring) (st : Shared.AppState),
     ∃ effects,
       Shared.removeSchedule error id st = (st, [Shared.Delete id], effects)) ∧
  (∀ (id : jstring) (prev : list Shared.Schedule),
     let next := Shared.onPayload (Shared.DELETE id) prev in
     (∀ x, x ∈ next ↔ x ∈ prev ∧ Shared.id x ≠ id) ∧
     sublist next prev ∧
     (∀ l1 s l2,
        prev = l1 ++ s :: l2 → Shared.id s = id →
        Forall (λ x, Shared.id x ≠ id) (l1 ++ l2) →
        next = l1 ++ l2)).
Proof.
  split; [by eexists|].
  intros id prev next. subst next. rewrite onPayload_DELETE_decide.
  split; [|split].
  - intros x. rewrite list_elem_of_filter. tauto.
  - apply sublist_filter.
  - intros l1 s l2 -> Hs [H1 H2]%Forall_app.
    rewrite filter_app, filter_cons.
    destruct (decide (Shared.id s ≠ id)); [done|].
    f_equal; by apply filter_all.
Qed.

(** ** Unknown ids *)

(** C10: a toggle, a reported update and a reported deletion for an id
    that no event of the collection has leave the collection as it is. *)
Theorem C10_unknown_id_noop :
  (∀ (scheduleId : Z) (member : Member) (st : Local.AppState),
     scheduleId ∉ map Local.id (Local.schedules st) →
     Local.toggleVote scheduleId member st = st) ∧
  (∀ (row : Shared.Schedule) (prev : list Shared.Schedule),
     Shared.id row ∉ map Shared.id prev →
     Shared.onPayload (Shared.UPDATE row) prev = prev) ∧
  (∀ (id : jstring) (prev : list Shared.Schedule),
     id ∉ map Shared.id prev →
     Shared.onPayload (Shared.DELETE id) prev = prev).
Proof.
  split; [|split].
  - intros scheduleId member [d t l] Hid. unfold Local.toggleVote.
    cbn [Local.ui_date Local.ui_title Local.schedules] in *. f_equal.
    induction l as [|s l IH]; [done|]. cbn [map] in *.
    apply not_elem_of_cons in Hid as [Hs Hl].
    rewrite Local_toggleOne_other by done. f_equal. by apply IH.
  - intros row prev Hid. cbn [Shared.onPayload].
    induction prev as [|x prev IH]; [done|]. cbn [map] in *.
    apply not_elem_of_cons in Hid as [Hx Hprev].
    rewrite bool_decide_eq_false_2 by done. f_equal. by apply IH.
  - intros id prev Hid. rewrite onPayload_DELETE_decide. apply filter_all.
    apply Forall_forall. intros x Hx Heq. apply Hid.
    rewrite <- Heq. by apply (list_elem_of_fmap_2 Shared.id).
Qed.

(** ** Export *)

(** C8: with no confirmed event the export shows one notice, offers no
    file, leaves the state as it is and does not throw. *)
Theorem C8_export_empty :
  (∀ st : Local.AppState,
     Local.confirmed (Local.schedules st) = [] →
     Local.exportICS st = Some (st, [Alert msgNoConfirmed])) ∧
  (∀ (DateParse : jstring → option Z) (st : Shared.AppState),
     Shared.confirmed (Shared.schedules st) = [] →
     Shared.exportICS DateParse st = Some (st, [Alert msgNoConfirmed])).
Proof.
  split.
  - intros st H. unfold Local.exportICS. by rewrite H.
  - intros DateParse st H. unfold Shared.exportICS. by rewrite H.
Qed.

Lemma icsEventText_calendarEvent (title : jstring) (t : Z) :
  icsEventText title (calendarStamp t) (calendarStamp (t + twoHours))
  = calendarEvent (title, t).
Proof.
  unfold icsEventText, calendarEvent. cbn [join fst snd].
  change (2 * msPerHour) with twoHours. by rewrite <- !app_assoc.
Qed.

Lemma icsContent_calendarText (evs : list (jstring * Z)) :
  icsContent (join LF (map calendarEvent evs)) = calendarText evs.
Proof. unfold icsContent, calendarText. by rewrite <- !app_assoc. Qed.

Lemma toISOString_fourDigitYear (t : Z) :
  fourDigitYear t →
  ∃ iso, toISOString t = Some iso ∧ icsStamp iso = calendarStamp t.
Proof.
  intros H%icsStamp_fourDigitYear.
  destruct (toISOString t) as [iso|]; [|done].
  exists iso. split; [done|]. by injection H.
Qed.

Lemma Local_icsEvent_fourDigitYear (s : Local.Schedule) :
  fourDigitYear (Local.date s) → fourDigitYear (Local.date s + twoHours) →
  Local.icsEvent s = Some (calendarEvent (Local.title s, Local.date s)).
Proof.
  intros (iso1 & H1 & E1)%toISOString_fourDigitYear
         (iso2 & H2 & E2)%toISOString_fourDigitYear.
  unfold Local.icsEvent. rewrite H1, H2. cbn [mbind option_bind].
  by rewrite E1, E2, icsEventText_calendarEvent.
Qed.

Lemma Shared_icsEvent_fourDigitYear (DateParse : jstring → option Z)
    (s : Shared.Schedule) (t : Z) :
  DateParse (Shared.starts_at s) = Some t →
  fourDigitYear t → fourDigitYear (t + twoHours) →
  Shared.icsEvent DateParse s = Some (calendarEvent (Shared.title s, t)).
Proof.
  intros Ht (iso1 & H1 & E1)%toISOString_fourDigitYear
            (iso2 & H2 & E2)%toISOString_fourDigitYear.
  unfold Shared.icsEvent. rewrite Ht. cbn [mbind option_bind].
  rewrite H1, H2. cbn [mbind option_bind].
  by rewrite E1, E2, icsEventText_calendarEvent.
Qed.

Lemma length_eqb_0 {A} (l : list A) : l ≠ [] → (length l =? 0)%nat = false.
Proof. by destruct l. Qed.

(** C5, for start and end instants whose year has four digits: the
    export offers one file whose text is the container around one record
    per confirmed event, in their order, each with the title verbatim,
    the start stamp [YYYYMMDDTHHMMSSZ] in UTC and the stamp of the
    instant two hours later; such a stamp is eight digits, [T], six
    digits and [Z]. *)
Theorem C5_export_calendar_text :
  (∀ st : Local.AppState,
     let confirmed := Local.confirmed (Local.schedules st) in
     confirmed ≠ [] →
     (∀ s, s ∈ confirmed →
           fourDigitYear (Local.date s) ∧
           fourDigitYear (Local.date s + twoHours)) →
     Local.exportICS st
     = Some (st, [Download icsFilename icsMime
                    (calendarText
                       (map (λ s, (Local.title s, Local.date s)) confirmed))])) ∧
  (∀ (DateParse : jstring → option Z) (st : Shared.AppState) (starts : list Z),
     let confirmed := Shared.confirmed (Shared.schedules st) in
     confirmed ≠ [] →
     Forall2 (λ s t, DateParse (Shared.starts_at s) = Some t ∧
                     fourDigitYear t ∧ fourDigitYear (t + twoHours))
             confirmed starts →
     Shared.exportICS DateParse st
     = Some (st, [Download icsFilename icsMime
                    (calendarText (zip (map Shared.title confirmed) starts))])) ∧
  (∀ t : Z, is_calendarStamp (calendarStamp t) = true).
Proof.
  split; [|split; [|apply calendarStamp_shape]].
  - intros st confirmed Hne Hyears. unfold Local.exportICS. fold confirmed.
    rewrite (length_eqb_0 _ Hne).
    assert (mapM Local.icsEvent confirmed
            = Some (map calendarEvent
                      (map (λ s, (Local.title s, Local.date s)) confirmed))) as ->.
    { apply mapM_Some. clearbody confirmed. clear Hne.
      induction confirmed as [|s l IH]; [constructor|]. cbn [map].
      constructor.
      - destruct (Hyears s) as [H1 H2]; [apply list_elem_of_here|].
        by apply Local_icsEvent_fourDigitYear.
      - apply IH. intros x Hx. apply Hyears. by apply list_elem_of_further. }
    cbn [mbind option_bind]. by rewrite icsContent_calendarText.
  - intros DateParse st starts confirmed Hne Hyears.
    unfold Shared.exportICS. fold confirmed. rewrite (length_eqb_0 _ Hne).
    assert (mapM (Shared.icsEvent DateParse) confirmed
            = Some (map calendarEvent
                      (zip (map Shared.title confirmed) starts))) as ->.
    { apply mapM_Some. clearbody confirmed. clear Hne.
      induction Hyears as [|s t l ts (Ht & H1 & H2) _ IH]; [constructor|].
      cbn [map zip zip_with]. constructor; [|done].
      by apply Shared_icsEvent_fourDigitYear. }
    cbn [mbind option_bind]. by rewrite icsContent_calendarText.
Qed.

(** ** The theorems on sample data *)

(** The model of [toISOString] on known instants. *)
Example toISOString_epoch :
  toISOString 0 = Some (str "1970-01-01T00:00:00.000Z").
Proof. reflexivity. Qed.

Example toISOString_leap_day :
  toISOString 1709251199999 = Some (str "2024-02-29T23:59:59.999Z").
Proof. reflexivity. Qed.

Example toISOString_before_epoch :
  toISOString (-1) = Some (str "1969-12-31T23:59:59.999Z").
Proof. reflexivity. Qed.

Example toISOString_max :
  toISOString maxTime = Some (str "+275760-09-13T00:00:00.000Z") ∧
  toISOString (maxTime + 1) = None.
Proof. split; reflexivity. Qed.

Example toISOString_year_before_0 :
  toISOString (TimeFromYear 0 - 1) = Some (str "-000001-12-31T23:59:59.999Z").
Proof. reflexivity. Qed.

Lemma C1_confirmed_filter_witness :
  Local.confirmed (sampleToggled :: Local.schedules (sampleLocal noon2025))
  = Local.schedules (sampleLocal noon2025) ∧
  Shared.confirmed [sampleRowB; sampleRow votesAllYes]
  = [sampleRow votesAllYes].
Proof.
  destruct C1_confirmed_filter as (Hlocal & Hshared & _). split.
  - destruct (Hlocal (sampleToggled :: Local.schedules (sampleLocal noon2025)))
      as (-> & _). vm_compute. reflexivity.
  - destruct (Hshared [sampleRowB; sampleRow votesAllYes]) as (-> & _).
    vm_compute. reflexivity.
Defined.

Lemma C4_responded_flag_witness :
  Local.submittedMap [sampleToggled] !! Rino = Some true ∧
  Local.submittedMap [sampleToggled] !! Teru = Some false ∧
  Shared.submittedMap [sampleRowB; sampleRow votesAllYes] !! Yaan = Some true.
Proof.
  destruct C4_responded_flag as (Hlocal & Hshared & _). split; [|split].
  - apply (Hlocal [sampleToggled] Rino). exists sampleToggled.
    split; [left|]. vm_compute. discriminate.
  - apply (Hlocal [sampleToggled] Teru). intros s Hs.
    apply list_elem_of_singleton in Hs as ->. vm_compute. reflexivity.
  - apply (Hshared [sampleRowB; sampleRow votesAllYes] Yaan).
    exists (sampleRow votesAllYes). split; [right; left|].
    vm_compute. discriminate.
Defined.

Lemma C3_votes_keys_full_witness :
  dom (Local.votes sampleToggled) = memberSet ∧
  dom (Shared.nextVotes (sampleRow emptyVotes) Yaan) = memberSet.
Proof.
  destruct C3_votes_keys_full as (Hrun & _ & Hnext & _). split.
  - apply (Hrun noon2025 sampleActions sampleToggled). vm_compute. left.
  - apply Hnext. vm_compute. reflexivity.
Defined.

Lemma C5_export_calendar_text_witness :
  Local.exportICS (sampleLocal noon2025)
  = Some (sampleLocal noon2025,
          [Download icsFilename icsMime
             (sampleText "20250101T120000Z" "20250101T140000Z")]) ∧
  Shared.exportICS (λ _, Some noon2025) (sampleShared [sampleRow votesAllYes])
  = Some (sampleShared [sampleRow votesAllYes],
          [Download icsFilename icsMime
             (sampleText "20250101T120000Z" "20250101T140000Z")]).
Proof.
  destruct C5_export_calendar_text as (Hlocal & Hshared & _). split.
  - rewrite (Hlocal (sampleLocal noon2025)).
    + reflexivity.
    + vm_compute. discriminate.
    + intros s Hs. vm_compute in Hs. apply list_elem_of_singleton in Hs as ->.
      vm_compute. repeat split; discriminate.
  - rewrite (Hshared (λ _, Some noon2025) (sampleShared [sampleRow votesAllYes])
               [noon2025]).
    + reflexivity.
    + vm_compute. discriminate.
    + assert (Shared.confirmed
                (Shared.schedules (sampleShared [sampleRow votesAllYes]))
              = [sampleRow votesAllYes]) as -> by (vm_compute; reflexivity).
      constructor; [|constructor]. split; [reflexivity|].
      split; split; vm_compute; (reflexivity || discriminate).
Defined.

(** The claim C5 fails for a confirmed event that starts at
    10000-01-01T00:00:00Z: the stamps of the exported text have a sign
    and six year digits, in the local variants and in the shared one. *)
Lemma C5_counterexample_year_10000 :
  Local.confirmed (Local.schedules (sampleLocal year10000)) ≠ [] ∧
  Local.exportICS (sampleLocal year10000)
  = Some (sampleLocal year10000,
          [Download icsFilename icsMime
             (sampleText "+0100000101T000000Z" "+0100000101T020000Z")]) ∧
  Shared.exportICS (λ _, Some year10000) (sampleShared [sampleRowFar])
  = Some (sampleShared [sampleRowFar],
          [Download icsFilename icsMime
             (sampleText "+0100000101T000000Z" "+0100000101T020000Z")]) ∧
  is_calendarStamp (str "+0100000101T000000Z") = false ∧
  sampleText "+0100000101T000000Z" "+0100000101T020000Z"
  ≠ calendarText [(sampleTitle, year10000)].
Proof.
  split; [by vm_compute|]. split; [reflexivity|]. split; [reflexivity|].
  split; [reflexivity|]. vm_compute. discriminate.
Qed.

Lemma C6_addSchedule_witness :
  Local.addSchedule 7 sampleBlank = sampleBlank ∧
  (∃ new,
     Local.schedules (Local.addSchedule 7 sampleTitled)
     = Local.schedules sampleTitled ++ [new] ∧
     Local.id new = 7 ∧
     Local.title new = trim (Local.ui_title sampleTitled) ∧
     Local.date new = Local.ui_date sampleTitled ∧
     ∀ m, Local.votes new !! m = Some Vno) ∧
  Shared.addSchedule None (sampleShared []) = Some (sampleShared [], [], []).
Proof.
  destruct C6_addSchedule as (Hlocal & Hshared & _).
  destruct (Hlocal 7 sampleBlank) as [Hblank _].
  destruct (Hlocal 7 sampleTitled) as [_ Htitled].
  destruct (Hshared None (sampleShared [])) as [Hreject _].
  split; [|split].
  - apply Hblank. reflexivity.
  - apply Htitled. vm_compute. discriminate.
  - apply Hreject. reflexivity.
Defined.



Lemma C8_export_empty_witness :
  Local.exportICS (Local.init noon2025)
  = Some (Local.init noon2025, [Alert msgNoConfirmed]) ∧
  Shared.exportICS (λ _, None) (sampleShared [sampleRow emptyVotes])
  = Some (sampleShared [sampleRow emptyVotes], [Alert msgNoConfirmed]).
Proof.
  destruct C8_export_empty as [Hlocal Hshared]. split.
  - apply Hlocal. reflexivity.
  - apply Hshared. reflexivity.
Defined.

Lemma C9_delete_frame_witness :
  Shared.onPayload (Shared.DELETE (str "a1"))
    [sampleRowB; sampleRow votesAllYes; sampleRowB]
  = [sampleRowB; sampleRowB].
Proof.
  destruct C9_delete_frame as [_ Hdelete].
  destruct (Hdelete (str "a1") [sampleRowB; sampleRow votesAllYes; sampleRowB])
    as (_ & _ & Hsplit).
  apply (Hsplit [sampleRowB] (sampleRow votesAllYes) [sampleRowB]).
  - reflexivity.
  - reflexivity.
  - repeat constructor; vm_compute; discriminate.
Defined.

Lemma C10_unknown_id_noop_witness :
  Local.toggleVote 99 Teru (sampleLocal noon2025) = sampleLocal noon2025 ∧
  Shared.onPayload (Shared.UPDATE (sampleRow votesAllYes)) [sampleRowB]
  = [sampleRowB] ∧
  Shared.onPayload (Shared.DELETE (str "a1")) [sampleRowB] = [sampleRowB].
Proof.
  destruct C10_unknown_id_noop as (Htoggle & Hupdate & Hdelete).
  split; [|split].
  - apply Htoggle. apply (bool_decide_unpack _). vm_compute. exact I.
  - apply Hupdate. apply (bool_decide_unpack _). vm_compute. exact I.
  - apply Hdelete. apply (bool_decide_unpack _). vm_compute. exact I.
Defined.

(** * Further properties *)

(** ** Titles *)

Lemma trimStart_split (s : jstring) :
  ∃ p, s = p ++ trimStart s ∧ Forall (λ c, is_js_space c = true) p.
Proof.
  induction s as [|c s (p & Hs & Hp)]; cbn [trimStart].
  - by exists [].
  - destruct (is_js_space c) eqn:Ec.
    + exists (c :: p). split; [by rewrite Hs at 1|by constructor].
    + by exists [].
Qed.

Lemma trimStart_fixed (s : jstring) :
  (∀ c, head s = Some c → is_js_space c = false) → trimStart s = s.
Proof.
  destruct s as [|c s]; [done|]. intros H. cbn [trimStart].
  by rewrite (H c eq_refl).
Qed.

(** [trim] deletes white space at both ends and nothing else. *)
Lemma trim_split (s : jstring) :
  ∃ p q, s = p ++ trim s ++ q ∧
         Forall (λ c, is_js_space c = true) p ∧
         Forall (λ c, is_js_space c = true) q.
Proof.
  destruct (trimStart_split s) as (p & Hs & Hp).
  destruct (trimStart_split (reverse (trimStart s))) as (q & Hr & Hq).
  exists p, (reverse q). split; [|split; [done|by apply Forall_reverse]].
  unfold trim, trimEnd. rewrite <- reverse_app, <- Hr, reverse_involutive.
  exact Hs.
Qed.

Lemma trim_head (s : jstring) (c : N) :
  head (trim s) = Some c → is_js_space c = false.
Proof.
  unfold trim, trimEnd. rewrite head_reverse. intros Hlast.
  destruct (trimStart_split (reverse (trimStart s))) as (q & Hr & Hq).
  assert (last (reverse (trimStart s)) = Some c) as Hc.
  { rewrite Hr. by apply last_app_Some; left. }
  rewrite last_reverse in Hc.
  destruct (trimStart s) as [|c' r] eqn:E; [done|].
  injection Hc as ->. by apply trimStart_head in E.
Qed.

Lemma trim_last (s : jstring) (c : N) :
  last (trim s) = Some c → is_js_space c = false.
Proof.
  unfold trim, trimEnd. rewrite last_reverse.
  destruct (trimStart (reverse (trimStart s))) as [|c' r] eqn:E; [done|].
  intros [= ->]. by apply trimStart_head in E.
Qed.

Lemma trim_fixed (s : jstring) :
  (∀ c, head s = Some c → is_js_space c = false) →
  (∀ c, last s = Some c → is_js_space c = false) →
  trim s = s.
Proof.
  intros Hhead Hlast. unfold trim, trimEnd.
  rewrite (trimStart_fixed s Hhead), trimStart_fixed.
  - apply reverse_involutive.
  - intros c. rewrite head_reverse. apply Hlast.
Qed.

Lemma trim_idemp (s : jstring) : trim (trim s) = trim s.
Proof. apply trim_fixed; [apply trim_head|apply trim_last]. Qed.

(** X1: an add leaves the state as it is exactly when the typed title
    consists of white space only; the shared variant then sends the
    store nothing, and only then. *)
Theorem X1_add_rejects_blank_titles :
  (∀ (now : Z) (st : Local.AppState),
     Local.addSchedule now st = st ↔
     Forall (λ c, is_js_space c = true) (Local.ui_title st)) ∧
  (∀ (error : option jstring) (st : Shared.AppState),
     Shared.addSchedule error st = Some (st, [], []) ↔
     Forall (λ c, is_js_space c = true) (Shared.ui_title st)).
Proof.
  split.
  - intros now st. rewrite <- trim_nil. unfold Local.addSchedule.
    destruct (trim (Local.ui_title st)) as [|c t] eqn:E; cbn [is_empty].
    + done.
    + split; [|done]. intros H. apply (f_equal Local.schedules) in H.
      cbn [Local.schedules] in H. apply (f_equal length) in H.
      rewrite length_app in H. cbn [length] in H. lia.
  - intros error st. rewrite <- trim_nil. unfold Shared.addSchedule.
    destruct (trim (Shared.ui_title st)) as [|c t] eqn:E; cbn [is_empty].
    + done.
    + split; [|done].
      destruct (toISOString (Shared.ui_date st)); cbn [mbind option_bind];
        [|done]. by destruct error.
Qed.

(** X2: the title of the event that an add creates is the typed title
    without the white space at its two ends: nothing else is removed,
    and no white space is left at either end. *)
Theorem X2_added_title_is_trimmed (now : Z) (st : Local.AppState) :
  ¬ Forall (λ c, is_js_space c = true) (Local.ui_title st) →
  ∃ new p q,
    Local.schedules (Local.addSchedule now st) = Local.schedules st ++ [new] ∧
    Local.ui_title st = p ++ Local.title new ++ q ∧
    Forall (λ c, is_js_space c = true) p ∧
    Forall (λ c, is_js_space c = true) q ∧
    (∀ c, head (Local.title new) = Some c → is_js_space c = false) ∧
    (∀ c, last (Local.title new) = Some c → is_js_space c = false).
Proof.
  rewrite <- trim_nil. intros Hne. unfold Local.addSchedule.
  destruct (is_empty (trim (Local.ui_title st))) eqn:E.
  { by destruct (trim (Local.ui_title st)). }
  destruct (trim_split (Local.ui_title st)) as (p & q & Hs & Hp & Hq).
  eexists _, p, q. cbn [Local.schedules Local.title].
  split; [done|]. split; [done|]. split; [done|]. split; [done|].
  split; [apply trim_head|apply trim_last].
Qed.

Lemma Local_toggleOne_title (i : Z) (m : Member) (s : Local.Schedule) :
  Local.title (Local.toggleOne i m s) = Local.title s.
Proof. unfold Local.toggleOne. by destruct (negb _). Qed.

Lemma Local_toggleOne_id (i : Z) (m : Member) (s : Local.Schedule) :
  Local.id (Local.toggleOne i m s) = Local.id s.
Proof. unfold Local.toggleOne. by destruct (negb _). Qed.

(** Invariants of the runs are shown step by step. *)
Lemma Local_run_ind (P : Local.AppState → Prop) (today : Z) :
  P (Local.init today) →
  (∀ st a, P st → P (Local.step st a)) →
  ∀ actions, P (Local.run today actions).
Proof.
  intros Hinit Hstep actions. unfold Local.run.
  induction actions as [|a actions IH] using rev_ind; [done|].
  rewrite foldl_app. by apply Hstep.
Qed.

(** X3: in every run, each event of the collection has a title that is
    not empty and neither starts nor ends with white space. *)
Theorem X3_titles_stay_trimmed (today : Z) (actions : list Local.Action)
    (s : Local.Schedule) :
  s ∈ Local.schedules (Local.run today actions) →
  Local.title s ≠ [] ∧ trim (Local.title s) = Local.title s.
Proof.
  revert s. apply (Local_run_ind
    (λ st, ∀ s, s ∈ Local.schedules st →
                Local.title s ≠ [] ∧ trim (Local.title s) = Local.title s)).
  - intros s Hs. by apply elem_of_nil in Hs.
  - intros st [d|t|now|i m] IH s; cbn [Local.step Local.schedules]; try apply IH.
    + unfold Local.addSchedule.
      destruct (trim (Local.ui_title st)) as [|c r] eqn:E; cbn [is_empty];
        [apply IH|].
      cbn [Local.schedules]. intros [Hs|Hs]%elem_of_app; [by apply IH|].
      apply list_elem_of_singleton in Hs as ->. cbn [Local.title].
      split; [done|]. rewrite <- E. apply trim_idemp.
    + intros (s0 & -> & Hs0)%list_elem_of_fmap.
      rewrite Local_toggleOne_title. by apply IH.
Qed.

(** X4: a second add without typing again adds nothing: the first one
    has emptied the title. *)
Theorem X4_add_twice (now now' : Z) (st : Local.AppState) :
  Local.addSchedule now' (Local.addSchedule now st) = Local.addSchedule now st.
Proof.
  unfold Local.addSchedule at 2 3.
  destruct (is_empty (trim (Local.ui_title st))) eqn:E.
  - unfold Local.addSchedule. by rewrite E.
  - reflexivity.
Qed.

(** ** Toggles *)

Lemma nextVote_thrice (v : Vote) :
  nextVote (nextVote (nextVote (Some v))) = Some v.
Proof. by destruct v. Qed.

Lemma nextVote_yes (current : option Vote) :
  nextVote current = Some Vyes ↔ current = Some Vif.
Proof. by destruct current as [[]|]. Qed.

Lemma spread_set_spread_set (vs : Votes) (m : Member) (a b : option Vote) :
  spread_set (spread_set vs m a) m b = spread_set vs m b.
Proof.
  apply map_eq. intros k. destruct (decide (k = m)) as [->|Hk].
  - by rewrite !spread_set_lookup.
  - by rewrite !spread_set_lookup_ne.
Qed.

Lemma spread_set_same (vs : Votes) (m : Member) :
  spread_set vs m (vs !! m) = vs.
Proof. apply partial_alter_self. Qed.

Lemma spread_set_comm (vs : Votes) (m m' : Member) (a b : option Vote) :
  m ≠ m' →
  spread_set (spread_set vs m a) m' b = spread_set (spread_set vs m' b) m a.
Proof.
  intros Hne. apply map_eq. intros k.
  destruct (decide (k = m)) as [->|Hk].
  - by rewrite spread_set_lookup_ne, !spread_set_lookup.
  - destruct (decide (k = m')) as [->|Hk'].
    + by rewrite spread_set_lookup, spread_set_lookup_ne, spread_set_lookup.
    + by rewrite !spread_set_lookup_ne.
Qed.

Lemma Local_toggleOne_same (i : Z) (m : Member) (s : Local.Schedule) :
  Local.id s = i →
  Local.toggleOne i m s
  = {| Local.id := Local.id s; Local.date := Local.date s;
       Local.title := Local.title s;
       Local.votes :=
         spread_set (Local.votes s) m (nextVote (Local.votes s !! m)) |}.
Proof.
  intros Hi. unfold Local.toggleOne. by rewrite bool_decide_eq_true_2.
Qed.

Lemma Local_toggleOne_comm (i j : Z) (m m' : Member) (s : Local.Schedule) :
  Local.toggleOne i m (Local.toggleOne j m' s)
  = Local.toggleOne j m' (Local.toggleOne i m s).
Proof.
  destruct (decide (Local.id s = i)) as [Hi|Hi];
    destruct (decide (Local.id s = j)) as [Hj|Hj].
  - destruct (decide (m = m')) as [->|Hm]; [congruence|].
    rewrite (Local_toggleOne_same j m' s Hj), (Local_toggleOne_same i m s Hi).
    rewrite (Local_toggleOne_same i m) by (rewrite ?Local_toggleOne_id; exact Hi).
    rewrite (Local_toggleOne_same j m') by (rewrite ?Local_toggleOne_id; exact Hj).
    cbn [Local.id Local.date Local.title Local.votes]. f_equal.
    rewrite (spread_set_lookup_ne _ m' m), (spread_set_lookup_ne _ m m') by done.
    by apply spread_set_comm.
  - rewrite (Local_toggleOne_other j m' s Hj).
    rewrite (Local_toggleOne_other j m'); [done|].
    by rewrite Local_toggleOne_id.
  - rewrite (Local_toggleOne_other i m s Hi).
    rewrite (Local_toggleOne_other i m); [done|].
    by rewrite Local_toggleOne_id.
  - rewrite (Local_toggleOne_other j m' s Hj), (Local_toggleOne_other i m s Hi).
    by rewrite (Local_toggleOne_other j m' s Hj).
Qed.

(** X5: two toggles give the same state in either order, whatever the
    events and members they name. *)
Theorem X5_toggles_commute (i j : Z) (m m' : Member) (st : Local.AppState) :
  Local.toggleVote i m (Local.toggleVote j m' st)
  = Local.toggleVote j m' (Local.toggleVote i m st).
Proof.
  unfold Local.toggleVote. cbn [Local.ui_date Local.ui_title Local.schedules].
  f_equal. rewrite !map_map. apply map_ext. intros s.
  apply Local_toggleOne_comm.
Qed.

Lemma Local_toggleOne_thrice (i : Z) (m : Member) (s : Local.Schedule) :
  (Local.id s = i → is_Some (Local.votes s !! m)) →
  Local.toggleOne i m (Local.toggleOne i m (Local.toggleOne i m s)) = s.
Proof.
  intros Hvote. destruct (decide (Local.id s = i)) as [Hi|Hi].
  - destruct (Hvote Hi) as [v Hv].
    rewrite (Local_toggleOne_same i m s Hi).
    rewrite (Local_toggleOne_same i m) by (rewrite ?Local_toggleOne_id; exact Hi).
    rewrite (Local_toggleOne_same i m) by (rewrite ?Local_toggleOne_id; exact Hi).
    cbn [Local.id Local.date Local.title Local.votes].
    rewrite !spread_set_lookup, !spread_set_spread_set.
    rewrite Hv, nextVote_thrice, <- Hv, spread_set_same. by destruct s.
  - by rewrite !(Local_toggleOne_other i m s Hi).
Qed.

(** X6: three toggles of a member's vote on an event give the state
    back, provided the events with that id have a vote of the member. *)
Theorem X6_three_toggles_restore (i : Z) (m : Member) (st : Local.AppState) :
  (∀ s, s ∈ Local.schedules st → Local.id s = i →
        is_Some (Local.votes s !! m)) →
  Local.toggleVote i m (Local.toggleVote i m (Local.toggleVote i m st)) = st.
Proof.
  intros Hvotes. destruct st as [d t l].
  unfold Local.toggleVote. cbn [Local.ui_date Local.ui_title Local.schedules] in *.
  f_equal. rewrite !map_map.
  induction l as [|s l IH]; [done|]. cbn [map]. f_equal.
  - apply Local_toggleOne_thrice. apply Hvotes, list_elem_of_here.
  - apply IH. intros x Hx. by apply Hvotes, list_elem_of_further.
Qed.

(** X7: the toggle of an event's vote makes the event confirmed exactly
    when that vote was "if" and all other votes were "yes"; the toggle
    of a vote of a confirmed event always ends its confirmation. *)
Theorem X7_toggle_and_confirmation (m : Member) (s : Local.Schedule) :
  (Local.allYes (Local.toggleOne (Local.id s) m s) = true ↔
     Local.votes s !! m = Some Vif ∧
     ∀ m', m' ≠ m → Local.votes s !! m' = Some Vyes) ∧
  (Local.allYes s = true →
     Local.allYes (Local.toggleOne (Local.id s) m s) = false).
Proof.
  assert (Local.allYes (Local.toggleOne (Local.id s) m s) = true ↔
     Local.votes s !! m = Some Vif ∧
     ∀ m', m' ≠ m → Local.votes s !! m' = Some Vyes) as Hiff.
  { unfold Local.allYes. rewrite allYes_everyVoteYes.
    rewrite (Local_toggleOne_same _ m s eq_refl). cbn [Local.votes].
    unfold everyVoteYes. split.
    - intros H. split.
      + apply nextVote_yes. by rewrite <- (H m), spread_set_lookup.
      + intros m' Hm'. by rewrite <- (H m'), spread_set_lookup_ne.
    - intros [Hm Hothers] k. destruct (decide (k = m)) as [->|Hk].
      + by rewrite spread_set_lookup, Hm.
      + rewrite spread_set_lookup_ne by done. by apply Hothers. }
  split; [exact Hiff|]. intros Hyes.
  apply not_true_is_false. rewrite Hiff. intros [Hm _].
  unfold Local.allYes in Hyes. rewrite allYes_everyVoteYes in Hyes.
  specialize (Hyes m). congruence.
Qed.

(** ** Identifiers and order *)

Lemma Local_run_snoc (today : Z) (actions : list Local.Action)
    (a : Local.Action) :
  Local.run today (actions ++ [a]) = Local.step (Local.run today actions) a.
Proof. unfold Local.run. by rewrite foldl_app. Qed.

Lemma Local_toggleVote_ids (i : Z) (m : Member) (st : Local.AppState) :
  map Local.id (Local.schedules (Local.toggleVote i m st))
  = map Local.id (Local.schedules st).
Proof.
  unfold Local.toggleVote. cbn [Local.schedules]. rewrite map_map.
  apply map_ext. intros s. apply Local_toggleOne_id.
Qed.

(** The ids after a step: those before, followed by the time of an
    accepted add. *)
Lemma Local_step_ids (st : Local.AppState) (a : Local.Action) :
  ∃ added,
    map Local.id (Local.schedules (Local.step st a))
    = map Local.id (Local.schedules st) ++ added ∧
    added `sublist_of` addTimes [a].
Proof.
  destruct a as [d|t|now|i m]; cbn [Local.step Local.schedules].
  - exists []. by rewrite app_nil_r.
  - exists []. by rewrite app_nil_r.
  - unfold Local.addSchedule. destruct (is_empty _).
    + exists []. rewrite app_nil_r. split; [done|apply sublist_nil_l].
    + exists [now]. cbn [Local.schedules]. by rewrite map_app.
  - exists []. by rewrite app_nil_r, Local_toggleVote_ids.
Qed.

(** X8: the ids of the collection, in its order, are among the clock
    values of the adds of the run, in their order; so they are pairwise
    distinct when these clock values are. *)
Theorem X8_ids_from_clock (today : Z) (actions : list Local.Action) :
  map Local.id (Local.schedules (Local.run today actions))
    `sublist_of` addTimes actions ∧
  (NoDup (addTimes actions) →
   NoDup (map Local.id (Local.schedules (Local.run today actions)))).
Proof.
  assert (map Local.id (Local.schedules (Local.run today actions))
            `sublist_of` addTimes actions) as Hsub.
  { induction actions as [|a actions IH] using rev_ind; [done|].
    rewrite Local_run_snoc. unfold addTimes. rewrite omap_app.
    destruct (Local_step_ids (Local.run today actions) a) as (added & -> & Ha).
    by apply sublist_app. }
  split; [done|]. intros Hnodup. by eapply sublist_NoDup.
Qed.

(** X9: a run never removes or reorders events: the ids after more
    actions start with the ids before them. *)
Theorem X9_events_only_appended (today : Z) (actions more : list Local.Action) :
  map Local.id (Local.schedules (Local.run today actions))
    `prefix_of`
  map Local.id (Local.schedules (Local.run today (actions ++ more))).
Proof.
  induction more as [|a more IH] using rev_ind.
  - by rewrite app_nil_r.
  - rewrite app_assoc, Local_run_snoc.
    destruct (Local_step_ids (Local.run today (actions ++ more)) a)
      as (added & -> & _).
    by apply prefix_app_r.
Qed.

(** X10: when the ids of the collection are pairwise distinct, a toggle
    replaces the one event with the id and keeps the events before and
    after it. *)
Theorem X10_toggle_one_event (m : Member) (st : Local.AppState)
    (l1 l2 : list Local.Schedule) (s : Local.Schedule) :
  Local.schedules st = l1 ++ s :: l2 →
  NoDup (map Local.id (Local.schedules st)) →
  Local.schedules (Local.toggleVote (Local.id s) m st)
  = l1 ++ {| Local.id := Local.id s; Local.date := Local.date s;
             Local.title := Local.title s;
             Local.votes :=
               spread_set (Local.votes s) m (nextVote (Local.votes s !! m)) |}
       :: l2.
Proof.
  intros Hst Hnodup. unfold Local.toggleVote. cbn [Local.schedules].
  rewrite Hst in *. rewrite map_app in *. cbn [map] in *.
  apply NoDup_app in Hnodup as (_ & Hl1 & [Hl2 _]%NoDup_cons).
  rewrite (Local_toggleOne_same _ m s eq_refl). f_equal; [|f_equal].
  - rewrite <- (map_id l1) at 2. apply map_ext_in. intros x Hx.
    apply Local_toggleOne_other. intros Heq.
    apply (Hl1 (Local.id x)).
    + apply list_elem_of_In, in_map, Hx.
    + rewrite Heq. apply list_elem_of_here.
  - rewrite <- (map_id l2) at 2. apply map_ext_in. intros x Hx.
    apply Local_toggleOne_other. intros Heq. apply Hl2.
    rewrite <- Heq. apply list_elem_of_In, in_map, Hx.
Qed.

(** ** The derived views *)

Lemma existsb_Permutation {A} (f : A → bool) (l l' : list A) :
  l ≡ₚ l' → existsb f l = existsb f l'.
Proof.
  induction 1 as [|x l l' _ IH|x y l|l l' l'' _ IH1 _ IH2]; cbn [existsb].
  - done.
  - by rewrite IH.
  - by destruct (f x), (f y).
  - congruence.
Qed.

Lemma existsb_true_elem {A} (f : A → bool) (l : list A) (x : A) :
  x ∈ l → f x = true → existsb f l = true.
Proof.
  intros Hx Hf. apply existsb_exists. exists x.
  split; [by apply list_elem_of_In|done].
Qed.

Lemma allYes_lookup (vs : Votes) (m : Member) :
  forallb (λ m, bool_decide (vs !! m = Some Vyes)) members = true →
  vs !! m = Some Vyes.
Proof. intros H%allYes_everyVoteYes. apply H. Qed.

(** X11: an add changes neither the confirmed events nor any member's
    responded flag: the new event has only "no" votes. *)
Theorem X11_add_keeps_views (now : Z) (st : Local.AppState) :
  Local.confirmed (Local.schedules (Local.addSchedule now st))
  = Local.confirmed (Local.schedules st) ∧
  Local.submittedMap (Local.schedules (Local.addSchedule now st))
  = Local.submittedMap (Local.schedules st).
Proof.
  unfold Local.addSchedule. destruct (is_empty _); [done|].
  cbn [Local.schedules]. split.
  - unfold Local.confirmed. rewrite List.filter_app. cbn [List.filter].
    assert (Local.allYes
              {| Local.id := now; Local.date := Local.ui_date st;
                 Local.title := trim (Local.ui_title st);
                 Local.votes := emptyVotes |} = false) as ->
      by reflexivity.
    apply app_nil_r.
  - apply map_eq. intros m. rewrite !Local_submittedMap_lookup.
    rewrite existsb_app. cbn [existsb Local.votes].
    rewrite emptyVotes_lookup, bool_decide_eq_true_2 by done.
    cbn [negb]. by rewrite !orb_false_r.
Qed.

(** X12: when some event is confirmed, every member is marked as
    having responded, in the local variants and in the shared one. *)
Theorem X12_confirmed_implies_responded :
  (∀ (l : list Local.Schedule) (s : Local.Schedule) (m : Member),
     s ∈ Local.confirmed l → Local.submittedMap l !! m = Some true) ∧
  (∀ (l : list Shared.Schedule) (s : Shared.Schedule) (m : Member),
     s ∈ Shared.confirmed l → Shared.submittedMap l !! m = Some true).
Proof.
  split.
  - intros l s m [Hs Hyes]%list_elem_of_In%filter_In.
    rewrite Local_submittedMap_lookup. f_equal.
    apply (existsb_true_elem _ l s); [by apply list_elem_of_In|].
    by rewrite (allYes_lookup _ m Hyes).
  - intros l s m [Hs Hyes]%list_elem_of_In%filter_In.
    rewrite Shared_submittedMap_lookup. f_equal.
    apply (existsb_true_elem _ l s); [by apply list_elem_of_In|].
    unfold Shared.shownVote. by rewrite (allYes_lookup _ m Hyes).
Qed.

(** X13: the responded flags are defined for exactly the members, and
    they do not depend on the order of the events. *)
Theorem X13_flags_keys_and_order :
  (∀ l : list Local.Schedule, dom (Local.submittedMap l) = memberSet) ∧
  (∀ l : list Shared.Schedule, dom (Shared.submittedMap l) = memberSet) ∧
  (∀ l l' : list Local.Schedule,
     l ≡ₚ l' → Local.submittedMap l = Local.submittedMap l') ∧
  (∀ l l' : list Shared.Schedule,
     l ≡ₚ l' → Shared.submittedMap l = Shared.submittedMap l').
Proof.
  split; [|split; [|split]].
  - intros l. apply set_eq. intros m.
    rewrite elem_of_dom, Local_submittedMap_lookup.
    split; [intros _; apply elem_of_memberSet|eauto].
  - intros l. apply set_eq. intros m.
    rewrite elem_of_dom, Shared_submittedMap_lookup.
    split; [intros _; apply elem_of_memberSet|eauto].
  - intros l l' Hp. apply map_eq. intros m.
    rewrite !Local_submittedMap_lookup. f_equal.
    by apply existsb_Permutation.
  - intros l l' Hp. apply map_eq. intros m.
    rewrite !Shared_submittedMap_lookup. f_equal.
    by apply existsb_Permutation.
Qed.

(** X14: an event without a vote of a member marks the member as having
    responded in the local variants, but not in the shared one, which
    shows the missing vote as "no"; the first toggle of a missing vote
    writes "no". *)
Theorem X14_missing_vote :
  (∀ (l : list Local.Schedule) (s : Local.Schedule) (m : Member),
     s ∈ l → Local.votes s !! m = None →
     Local.submittedMap l !! m = Some true) ∧
  (∀ (l : list Shared.Schedule) (m : Member),
     (∀ s, s ∈ l → Shared.votes s !! m = None) →
     Shared.submittedMap l !! m = Some false) ∧
  (∀ (s : Shared.Schedule) (m : Member),
     Shared.votes s !! m = None →
     Shared.shownVote s m = Vno ∧
     Shared.nextVotes s m = <[m := Vno]> (Shared.votes s)).
Proof.
  split; [|split].
  - intros l s m Hs Hm. rewrite Local_submittedMap_lookup. f_equal.
    apply (existsb_true_elem _ l s Hs). by rewrite Hm.
  - intros l m Hl. rewrite Shared_submittedMap_lookup. f_equal.
    apply not_true_is_false. intros (s & Hs & Hf)%existsb_exists.
    apply list_elem_of_In in Hs. unfold Shared.shownVote in Hf.
    by rewrite (Hl s Hs) in Hf.
  - intros s m Hm. unfold Shared.shownVote, Shared.nextVotes.
    by rewrite Hm.
Qed.

(** ** The mirror of the shared variant *)

Lemma onPayload_UPDATE_ids (row : Shared.Schedule) (prev : list Shared.Schedule) :
  map Shared.id (Shared.onPayload (Shared.UPDATE row) prev) = map Shared.id prev.
Proof.
  cbn [Shared.onPayload]. rewrite map_map. apply map_ext. intros x.
  destruct (decide (Shared.id x = Shared.id row)) as [Heq|Hne].
  - by rewrite bool_decide_eq_true_2.
  - by rewrite bool_decide_eq_false_2.
Qed.

Lemma onPayload_DELETE_ids (old_id : jstring) (prev : list Shared.Schedule) :
  map Shared.id (Shared.onPayload (Shared.DELETE old_id) prev)
  = filter (λ i, i ≠ old_id) (map Shared.id prev).
Proof.
  rewrite onPayload_DELETE_decide.
  induction prev as [|x prev IH]; [done|]. cbn [map].
  rewrite !filter_cons. destruct (decide (Shared.id x ≠ old_id)).
  - cbn [map]. by rewrite IH.
  - done.
Qed.

(** X15: the notification of an insertion followed by the one of the
    deletion of the same row gives the mirror back, when no row of the
    mirror had the id. *)
Theorem X15_insert_then_delete (row : Shared.Schedule)
    (prev : list Shared.Schedule) :
  Shared.id row ∉ map Shared.id prev →
  Shared.onPayload (Shared.DELETE (Shared.id row))
    (Shared.onPayload (Shared.INSERT row) prev) = prev.
Proof.
  intros Hfresh. rewrite onPayload_DELETE_decide. cbn [Shared.onPayload].
  rewrite filter_app, filter_cons_False, filter_nil, app_nil_r by tauto.
  apply filter_all, Forall_forall. intros x Hx Heq. apply Hfresh.
  rewrite <- Heq. by apply (list_elem_of_fmap_2 Shared.id).
Qed.

(** X16: an update never changes the ids of the mirror or their order;
    pairwise distinct ids stay so under every notification, provided an
    inserted row brings an id that the mirror does not have. *)
Theorem X16_mirror_ids (payload : Shared.Payload) (prev : list Shared.Schedule) :
  (∀ row, payload = Shared.UPDATE row →
     map Shared.id (Shared.onPayload payload prev) = map Shared.id prev) ∧
  ((∀ row, payload = Shared.INSERT row →
           Shared.id row ∉ map Shared.id prev) →
   NoDup (map Shared.id prev) →
   NoDup (map Shared.id (Shared.onPayload payload prev))).
Proof.
  split.
  - intros row ->. apply onPayload_UPDATE_ids.
  - intros Hfresh Hnodup. destruct payload as [row|row|old_id].
    + cbn [Shared.onPayload]. rewrite map_app. apply NoDup_app.
      split; [done|]. split; [|apply NoDup_singleton].
      intros i Hi ->%list_elem_of_singleton. by apply (Hfresh row).
    + by rewrite onPayload_UPDATE_ids.
    + rewrite onPayload_DELETE_ids. by apply NoDup_filter.
Qed.

(** X17: with pairwise distinct ids, the notification of an update
    replaces the one row with the id and keeps the rows around it. *)
Theorem X17_update_one_row (row x : Shared.Schedule)
    (l1 l2 : list Shared.Schedule) :
  Shared.id x = Shared.id row →
  NoDup (map Shared.id (l1 ++ x :: l2)) →
  Shared.onPayload (Shared.UPDATE row) (l1 ++ x :: l2) = l1 ++ row :: l2.
Proof.
  intros Hid Hnodup. cbn [Shared.onPayload].
  rewrite map_app in *. cbn [map] in *.
  apply NoDup_app in Hnodup as (_ & Hl1 & [Hl2 _]%NoDup_cons).
  rewrite (bool_decide_eq_true_2 _ Hid). f_equal; [|f_equal].
  - rewrite <- (map_id l1) at 2. apply map_ext_in. intros y Hy.
    rewrite bool_decide_eq_false_2; [done|]. intros Heq.
    apply (Hl1 (Shared.id y)).
    + apply list_elem_of_In, in_map, Hy.
    + rewrite Heq, <- Hid. apply list_elem_of_here.
  - rewrite <- (map_id l2) at 2. apply map_ext_in. intros y Hy.
    rewrite bool_decide_eq_false_2; [done|]. intros Heq. apply Hl2.
    rewrite Hid, <- Heq. apply list_elem_of_In, in_map, Hy.
Qed.

(** X18: a notification of an update or of a deletion that arrives
    twice has the effect of one; each notification of an insertion adds
    a row. *)
Theorem X18_repeated_notifications (prev : list Shared.Schedule) :
  (∀ row,
     Shared.onPayload (Shared.UPDATE row)
       (Shared.onPayload (Shared.UPDATE row) prev)
     = Shared.onPayload (Shared.UPDATE row) prev) ∧
  (∀ old_id,
     Shared.onPayload (Shared.DELETE old_id)
       (Shared.onPayload (Shared.DELETE old_id) prev)
     = Shared.onPayload (Shared.DELETE old_id) prev) ∧
  (∀ row,
     length (Shared.onPayload (Shared.INSERT row)
               (Shared.onPayload (Shared.INSERT row) prev))
     = S (S (length prev))).
Proof.
  split; [|split].
  - intros row. cbn [Shared.onPayload]. rewrite map_map. apply map_ext.
    intros x. destruct (decide (Shared.id x = Shared.id row)) as [Heq|Hne].
    + rewrite (bool_decide_eq_true_2 _ Heq). by rewrite bool_decide_eq_true_2.
    + rewrite (bool_decide_eq_false_2 _ Hne).
      by rewrite (bool_decide_eq_false_2 _ Hne).
  - intros old_id. rewrite !onPayload_DELETE_decide.
    apply filter_all, Forall_forall. by intros x [? _]%list_elem_of_filter.
  - intros row. cbn [Shared.onPayload]. rewrite !length_app. cbn [length]. lia.
Qed.

(** X19: notifications of updates and deletions that concern different
    ids have the same effect in either order. *)
Theorem X19_notifications_commute (prev : list Shared.Schedule) :
  (∀ row row',
     Shared.id row ≠ Shared.id row' →
     Shared.onPayload (Shared.UPDATE row)
       (Shared.onPayload (Shared.UPDATE row') prev)
     = Shared.onPayload (Shared.UPDATE row')
         (Shared.onPayload (Shared.UPDATE row) prev)) ∧
  (∀ row old_id,
     Shared.id row ≠ old_id →
     Shared.onPayload (Shared.UPDATE row)
       (Shared.onPayload (Shared.DELETE old_id) prev)
     = Shared.onPayload (Shared.DELETE old_id)
         (Shared.onPayload (Shared.UPDATE row) prev)) ∧
  (∀ old_id old_id',
     Shared.onPayload (Shared.DELETE old_id)
       (Shared.onPayload (Shared.DELETE old_id') prev)
     = Shared.onPayload (Shared.DELETE old_id')
         (Shared.onPayload (Shared.DELETE old_id) prev)).
Proof.
  split; [|split].
  - intros row row' Hne. cbn [Shared.onPayload]. rewrite !map_map.
    apply map_ext. intros x.
    destruct (decide (Shared.id x = Shared.id row)) as [Hx|Hx];
      destruct (decide (Shared.id x = Shared.id row')) as [Hx'|Hx'];
      [congruence| | |].
    + rewrite (bool_decide_eq_false_2 _ Hx'), (bool_decide_eq_true_2 _ Hx).
      by rewrite bool_decide_eq_false_2.
    + rewrite (bool_decide_eq_true_2 _ Hx'), (bool_decide_eq_false_2 _ Hx).
      rewrite (bool_decide_eq_false_2 (Shared.id row' = Shared.id row))
        by congruence.
      by rewrite bool_decide_eq_true_2.
    + rewrite (bool_decide_eq_false_2 _ Hx'), (bool_decide_eq_false_2 _ Hx).
      by rewrite (bool_decide_eq_false_2 _ Hx').
  - intros row old_id Hne. cbn [Shared.onPayload].
    induction prev as [|x prev IH]; [done|]. cbn [map List.filter].
    destruct (decide (Shared.id x = old_id)) as [Hx|Hx].
    + rewrite (bool_decide_eq_true_2 _ Hx). cbn [negb].
      rewrite (bool_decide_eq_false_2 (Shared.id x = Shared.id row))
        by congruence.
      by rewrite (bool_decide_eq_true_2 _ Hx).
    + rewrite (bool_decide_eq_false_2 _ Hx). cbn [negb map].
      destruct (decide (Shared.id x = Shared.id row)) as [Hr|Hr].
      * rewrite (bool_decide_eq_true_2 _ Hr).
        rewrite (bool_decide_eq_false_2 (Shared.id row = old_id)) by done.
        cbn [negb]. by rewrite IH.
      * rewrite (bool_decide_eq_false_2 _ Hr), (bool_decide_eq_false_2 _ Hx).
        cbn [negb]. by rewrite IH.
  - intros old_id old_id'. rewrite !onPayload_DELETE_decide.
    rewrite !list_filter_filter. apply list_filter_iff. tauto.
Qed.

(** ** The stamps of the export *)

Lemma toISOString_None (v : Z) : toISOString v = None ↔ maxTime < Z.abs v.
Proof.
  unfold toISOString, TimeClip.
  destruct (Z.leb_spec (Z.abs v) maxTime); cbn [mbind option_bind].
  - split; [done|lia].
  - done.
Qed.

Lemma TimeClip_valid (v : Z) : Z.abs v ≤ maxTime → TimeClip v = Some v.
Proof.
  intros H. unfold TimeClip. by destruct (Z.leb_spec (Z.abs v) maxTime); [|lia].
Qed.

Lemma length_digits (k : nat) (n : Z) : length (digits k n) = k.
Proof.
  revert n. induction k as [|k IH]; intros n; cbn [digits]; [done|].
  rewrite length_app, IH. cbn [length]. lia.
Qed.

Lemma split_dot_free (l rest : jstring) :
  Forall (λ c, (c =? 46)%N = false) l →
  (split 46 (l ++ rest)).1 = l ++ (split 46 rest).1.
Proof.
  induction 1 as [|c l Hc _ IH]; [done|].
  cbn [app split]. destruct (split 46 (l ++ rest)) as [h t] eqn:E.
  cbn [fst] in IH. by rewrite Hc, <- IH.
Qed.

Lemma digits_dot_free (k : nat) (n : Z) :
  Forall (λ c, (c =? 46)%N = false) (digits k n).
Proof.
  eapply Forall_impl; [apply digits_is_digit|]. apply is_digit_not_dot.
Qed.

(** What the deletion of hyphens leaves of the year of the ISO format. *)
Lemma replace_dash_colon_isoYear (y : Z) :
  replace_dash_colon (isoYear y) = stampYear y ∧
  Forall (λ c, (c =? 46)%N = false) (stampYear y).
Proof.
  unfold isoYear, stampYear. destruct ((0 <=? y) && (y <=? 9999)).
  - split; [apply replace_dash_colon_digit, digits_is_digit|apply digits_dot_free].
  - destruct (y <? 0).
    + rewrite replace_dash_colon_app.
      change (replace_dash_colon (str "-")) with (@nil N).
      split; [apply replace_dash_colon_digit, digits_is_digit|apply digits_dot_free].
    + rewrite replace_dash_colon_app.
      change (replace_dash_colon (str "+")) with (str "+").
      rewrite replace_dash_colon_digit by apply digits_is_digit.
      split; [done|]. apply Forall_app. split; [by repeat constructor|].
      apply digits_dot_free.
Qed.

(** The stamp of any valid date. *)
Lemma icsStamp_toISOString (t : Z) :
  Z.abs t ≤ maxTime → icsStamp <$> toISOString t = Some (exportStamp t).
Proof.
  intros Ht. unfold toISOString. rewrite (TimeClip_valid t Ht).
  cbn [mbind option_bind fmap option_fmap option_map]. f_equal.
  destruct (replace_dash_colon_isoYear (YearFromTime t)) as [Hyear Hfree].
  unfold icsStamp, exportStamp.
  change (str "-") with [45%N]. change (str ":") with [58%N].
  change (str ".") with [46%N]. change (str "T") with [84%N].
  change (str "Z") with [90%N].
  rewrite !replace_dash_colon_app, Hyear.
  change (replace_dash_colon [45%N]) with (@nil N).
  change (replace_dash_colon [58%N]) with (@nil N).
  change (replace_dash_colon [46%N]) with [46%N].
  change (replace_dash_colon [84%N]) with [84%N].
  change (replace_dash_colon [90%N]) with [90%N].
  rewrite !(replace_dash_colon_digit (digits _ _)) by apply digits_is_digit.
  rewrite !app_nil_l.
  rewrite split_dot_free by done.
  rewrite !split_dot_digit by apply digits_is_digit.
  change ([84%N] ++ ?x) with (84%N :: x).
  rewrite split_dot_other by done.
  rewrite !split_dot_digit by apply digits_is_digit.
  change ([46%N] ++ ?x) with (46%N :: x).
  rewrite split_dot_stop, app_nil_r.
  rewrite <- !app_assoc. cbn [app]. by rewrite <- !app_assoc.
Qed.

Lemma is_calendarStamp_length (s : jstring) :
  is_calendarStamp s = true → length s = 16%nat.
Proof.
  unfold is_calendarStamp.
  do 17 (destruct s as [|? s]; try done).
Qed.

Lemma length_exportStamp (t : Z) :
  length (exportStamp t) = (length (stampYear (YearFromTime t)) + 12)%nat.
Proof.
  unfold exportStamp. rewrite !length_app, !length_digits.
  change (length (str "T")) with 1%nat. change (length (str "Z")) with 1%nat.
  lia.
Qed.

(** X20: the export gives every valid date a stamp made of its UTC
    fields; below the year 0 the year has six digits and no sign, above
    9999 a plus sign and six digits, so the stamp has the documented
    sixteen characters exactly for the years 0000 to 9999. *)
Theorem X20_stamp_of_any_date (t : Z) :
  Z.abs t ≤ maxTime →
  icsStamp <$> toISOString t = Some (exportStamp t) ∧
  (is_calendarStamp (exportStamp t) = true ↔ fourDigitYear t).
Proof.
  intros Ht. split; [by apply icsStamp_toISOString|]. split.
  - intros Hlen%is_calendarStamp_length. apply year_fourDigitYear.
    rewrite length_exportStamp in Hlen. unfold stampYear in Hlen.
    destruct (Z.leb_spec 0 (YearFromTime t));
      destruct (Z.leb_spec (YearFromTime t) 9999); cbn [andb] in Hlen;
      try lia.
    + destruct (Z.ltb_spec (YearFromTime t) 0); [lia|].
      rewrite length_app, length_digits in Hlen. cbn [length] in Hlen. lia.
    + destruct (Z.ltb_spec (YearFromTime t) 0); [|lia].
      rewrite length_digits in Hlen. lia.
  - intros Hyear. pose proof (fourDigitYear_year t Hyear) as [H0 H1].
    apply Z.leb_le in H0, H1.
    assert (exportStamp t = calendarStamp t) as ->.
    { unfold exportStamp, calendarStamp, stampYear. by rewrite H0, H1. }
    apply calendarStamp_shape.
Qed.

(** The date fields depend on the day only. *)
Lemma TimeFromYear_leb_Day (y t : Z) :
  (TimeFromYear y <=? t) = (DayFromYear y <=? Day t).
Proof.
  unfold TimeFromYear, Day, msPerDay.
  destruct (Z.leb_spec (86400000 * DayFromYear y) t);
    destruct (Z.leb_spec (DayFromYear y) (t / 86400000)); try done; div_lia.
Qed.

Lemma year_search_Day (fuel : nat) (t t' y : Z) :
  Day t = Day t' → year_search fuel t y = year_search fuel t' y.
Proof.
  intros Hday. revert y. induction fuel as [|fuel IH]; intros y; [done|].
  cbn [year_search]. rewrite !TimeFromYear_leb_Day, Hday.
  destruct (_ <=? _); [apply IH|done].
Qed.

Lemma YearFromTime_Day (t t' : Z) :
  Day t = Day t' → YearFromTime t = YearFromTime t'.
Proof.
  intros Hday. unfold YearFromTime. rewrite Hday. by apply year_search_Day.
Qed.

Lemma MonthFromTime_Day (t t' : Z) :
  Day t = Day t' → MonthFromTime t = MonthFromTime t'.
Proof.
  intros Hday. unfold MonthFromTime, DayWithinYear, InLeapYear.
  by rewrite Hday, (YearFromTime_Day t t' Hday).
Qed.

Lemma DateFromTime_Day (t t' : Z) :
  Day t = Day t' → DateFromTime t = DateFromTime t'.
Proof.
  intros Hday. unfold DateFromTime, DayWithinYear, InLeapYear.
  by rewrite (MonthFromTime_Day t t' Hday), Hday, (YearFromTime_Day t t' Hday).
Qed.

Lemma Local_icsEvent_None (s : Local.Schedule) :
  Local.icsEvent s = None ↔
  maxTime < Z.abs (Local.date s) ∨ maxTime < Z.abs (Local.date s + twoHours).
Proof.
  rewrite <- !toISOString_None. unfold Local.icsEvent.
  destruct (toISOString (Local.date s)); cbn [mbind option_bind];
    [|by split; [left|]].
  destruct (toISOString (Local.date s + twoHours)); cbn [mbind option_bind].
  - split; [done|]. by intros [|].
  - by split; [right|].
Qed.

Lemma Shared_icsEvent_None (DateParse : jstring → option Z)
    (s : Shared.Schedule) :
  Shared.icsEvent DateParse s = None ↔
  match DateParse (Shared.starts_at s) with
  | None => True
  | Some t => maxTime < Z.abs t ∨ maxTime < Z.abs (t + twoHours)
  end.
Proof.
  unfold Shared.icsEvent.
  destruct (DateParse (Shared.starts_at s)) as [t|]; cbn [mbind option_bind];
    [|done].
  rewrite <- !toISOString_None.
  destruct (toISOString t); cbn [mbind option_bind]; [|by split; [left|]].
  destruct (toISOString (t + twoHours)); cbn [mbind option_bind].
  - split; [done|]. by intros [|].
  - by split; [right|].
Qed.

(** The map over the confirmed events throws when one callback does. *)
Lemma export_None {S} (icsEvent : S → option jstring) (confirmed : list S)
    (st : Type) (x : st) :
  (if (length confirmed =? 0)%nat then Some (x, [Alert msgNoConfirmed])
   else evs ← mapM icsEvent confirmed;
        Some (x, [Download icsFilename icsMime (icsContent (join LF evs))]))
  = None ↔
  ∃ s, s ∈ confirmed ∧ icsEvent s = None.
Proof.
  destruct confirmed as [|s0 l] eqn:E.
  - cbn. split; [done|]. intros (s & Hs & _). by apply elem_of_nil in Hs.
  - cbn [length Nat.eqb]. rewrite <- E. clear E.
    destruct (mapM icsEvent confirmed) as [evs|] eqn:Hm;
      cbn [mbind option_bind].
    + split; [done|]. intros (s & Hs & Hbad).
      assert (is_Some (mapM icsEvent confirmed)) as Hsome by eauto.
      apply mapM_is_Some_1 in Hsome. rewrite Forall_forall in Hsome.
      destruct (Hsome s Hs) as [y Hy]. cbn in Hy. congruence.
    + split; [|done]. intros _.
      by apply mapM_None_1, Exists_exists in Hm.
Qed.

(** X21: the export throws exactly when a confirmed event has an
    invalid start date or an end beyond the range of dates; events that
    are not confirmed do not matter. *)
Theorem X21_export_throws :
  (∀ st : Local.AppState,
     Local.exportICS st = None ↔
     ∃ s, s ∈ Local.confirmed (Local.schedules st) ∧
          (maxTime < Z.abs (Local.date s) ∨
           maxTime < Z.abs (Local.date s + twoHours))) ∧
  (∀ (DateParse : jstring → option Z) (st : Shared.AppState),
     Shared.exportICS DateParse st = None ↔
     ∃ s, s ∈ Shared.confirmed (Shared.schedules st) ∧
          match DateParse (Shared.starts_at s) with
          | None => True
          | Some t => maxTime < Z.abs t ∨ maxTime < Z.abs (t + twoHours)
          end).
Proof.
  split.
  - intros st. unfold Local.exportICS. rewrite export_None.
    by setoid_rewrite Local_icsEvent_None.
  - intros DateParse st. unfold Shared.exportICS. rewrite export_None.
    by setoid_rewrite Shared_icsEvent_None.
Qed.

(** X22: for a start before 22:00 UTC, the end stamp shows the date,
    minute and second of the start and its hour plus two. *)
Theorem X22_end_stamp_same_day (t : Z) :
  Z.abs (t + twoHours) ≤ maxTime →
  HourFromTime t < 22 →
  icsStamp <$> toISOString (t + twoHours)
  = Some (stampYear (YearFromTime t) ++ digits 2 (MonthFromTime t + 1) ++
          digits 2 (DateFromTime t) ++ str "T" ++
          digits 2 (HourFromTime t + 2) ++ digits 2 (MinFromTime t) ++
          digits 2 (SecFromTime t) ++ str "Z").
Proof.
  intros Hvalid Hhour. rewrite (icsStamp_toISOString _ Hvalid). f_equal.
  assert (Day (t + twoHours) = Day t) as Hday.
  { revert Hhour. unfold HourFromTime, Day, twoHours, msPerHour, msPerDay.
    intros. div_lia. }
  assert (HourFromTime (t + twoHours) = HourFromTime t + 2) as Hh.
  { revert Hhour. unfold HourFromTime, twoHours, msPerHour. intros. div_lia. }
  assert (MinFromTime (t + twoHours) = MinFromTime t) as Hm.
  { unfold MinFromTime, twoHours, msPerMinute. div_lia. }
  assert (SecFromTime (t + twoHours) = SecFromTime t) as Hs.
  { unfold SecFromTime, twoHours, msPerSecond. div_lia. }
  unfold exportStamp.
  by rewrite (YearFromTime_Day _ _ Hday), (MonthFromTime_Day _ _ Hday),
    (DateFromTime_Day _ _ Hday), Hh, Hm, Hs.
Qed.

(** X23: the export drops the milliseconds: two valid dates within the
    same second get the same stamp. *)
Theorem X23_stamp_whole_seconds (t t' : Z) :
  Z.abs t ≤ maxTime → Z.abs t' ≤ maxTime →
  t / 1000 = t' / 1000 →
  icsStamp <$> toISOString t = icsStamp <$> toISOString t'.
Proof.
  intros Ht Ht' Hsec. rewrite !icsStamp_toISOString by done. f_equal.
  assert (Day t = Day t') as Hday.
  { unfold Day, msPerDay. div_lia. }
  assert (HourFromTime t = HourFromTime t') as Hh.
  { unfold HourFromTime, msPerHour. div_lia. }
  assert (MinFromTime t = MinFromTime t') as Hm.
  { unfold MinFromTime, msPerMinute. div_lia. }
  assert (SecFromTime t = SecFromTime t') as Hs.
  { unfold SecFromTime, msPerSecond. by rewrite Hsec. }
  unfold exportStamp.
  by rewrite (YearFromTime_Day _ _ Hday), (MonthFromTime_Day _ _ Hday),
    (DateFromTime_Day _ _ Hday), Hh, Hm, Hs.
Qed.

(** ** The lines of the exported text *)

Lemma countLF_app (a b : jstring) : countLF (a ++ b) = (countLF a + countLF b)%nat.
Proof. unfold countLF. by rewrite List.filter_app, length_app. Qed.

Lemma countLF_digit (l : jstring) :
  Forall (λ c, is_digit c = true) l → countLF l = 0%nat.
Proof.
  unfold countLF. induction 1 as [|c l Hc _ IH]; [done|]. cbn [List.filter].
  assert ((c =? 10)%N = false) as ->; [|done].
  unfold is_digit in Hc. apply andb_true_iff in Hc as [H1 _].
  apply N.leb_le in H1. apply N.eqb_neq. lia.
Qed.

Lemma countLF_exportStamp (t : Z) : countLF (exportStamp t) = 0%nat.
Proof.
  unfold exportStamp, stampYear. rewrite !countLF_app.
  rewrite !(countLF_digit (digits _ _)) by apply digits_is_digit.
  destruct (_ && _); [|destruct (_ <? _)];
    rewrite ?countLF_app, !(countLF_digit (digits _ _)) by apply digits_is_digit;
    reflexivity.
Qed.

Lemma countLF_icsEventText (title start end_ : jstring) :
  countLF (icsEventText title start end_)
  = (4 + countLF title + countLF start + countLF end_)%nat.
Proof.
  unfold icsEventText. cbn [join]. rewrite !countLF_app.
  change (countLF LF) with 1%nat.
  change (countLF (str "BEGIN:VEVENT")) with 0%nat.
  change (countLF (str "SUMMARY:")) with 0%nat.
  change (countLF (str "DTSTART:")) with 0%nat.
  change (countLF (str "DTEND:")) with 0%nat.
  change (countLF (str "END:VEVENT")) with 0%nat. lia.
Qed.

Lemma countLF_join (l : list jstring) :
  l ≠ [] →
  S (countLF (join LF l)) = (sum_list (countLF <$> l) + length l)%nat.
Proof.
  induction l as [|x l IH]; [done|]. intros _. destruct l as [|y l].
  - cbn [join fmap list_fmap length].
    change (sum_list [countLF x]) with (countLF x + 0)%nat. lia.
  - change (join LF (x :: y :: l)) with (x ++ LF ++ join LF (y :: l)).
    rewrite !countLF_app. change (countLF LF) with 1%nat.
    specialize (IH ltac:(done)). rewrite fmap_cons.
    change (sum_list (?a :: ?k)) with (a + sum_list k)%nat.
    cbn [length] in *. lia.
Qed.

Lemma countLF_Local_icsEvent (s : Local.Schedule) (text : jstring) :
  Local.icsEvent s = Some text → countLF text = (4 + countLF (Local.title s))%nat.
Proof.
  unfold Local.icsEvent.
  destruct (toISOString (Local.date s)) as [iso1|] eqn:E1;
    cbn [mbind option_bind]; [|done].
  destruct (toISOString (Local.date s + twoHours)) as [iso2|] eqn:E2;
    cbn [mbind option_bind]; [|done].
  intros [= <-]. rewrite countLF_icsEventText.
  assert (∀ v iso, toISOString v = Some iso → countLF (icsStamp iso) = 0%nat)
    as Hstamp.
  { intros v iso Hv.
    assert (Z.abs v ≤ maxTime) as Hvalid.
    { destruct (Z.le_gt_cases (Z.abs v) maxTime) as [|Hbad]; [done|].
      apply toISOString_None in Hbad. congruence. }
    pose proof (icsStamp_toISOString v Hvalid) as H. rewrite Hv in H.
    injection H as ->. apply countLF_exportStamp. }
  rewrite (Hstamp _ _ E1), (Hstamp _ _ E2). lia.
Qed.

(** X24: an exported text has five lines for each confirmed event and
    three around them, and one more for every line feed of a title:
    titles are not escaped. *)
Theorem X24_export_line_feeds (st : Local.AppState) (content : jstring) :
  Local.exportICS st = Some (st, [Download icsFilename icsMime content]) →
  countLF content
  = (5 * length (Local.confirmed (Local.schedules st)) + 2 +
     sum_list (countLF ∘ Local.title <$> Local.confirmed (Local.schedules st)))%nat.
Proof.
  unfold Local.exportICS.
  destruct (Local.confirmed (Local.schedules st)) as [|s0 l] eqn:E; [done|].
  cbn [length Nat.eqb]. rewrite <- E.
  destruct (mapM Local.icsEvent (Local.confirmed (Local.schedules st)))
    as [evs|] eqn:Hm; cbn [mbind option_bind]; [|done].
  intros [= <-]. apply mapM_Some_1 in Hm.
  assert (∀ l0 evs0,
            Forall2 (λ s y, Local.icsEvent s = Some y) l0 evs0 →
            length evs0 = length l0 ∧
            sum_list (countLF <$> evs0)
            = (4 * length l0 + sum_list (countLF ∘ Local.title <$> l0))%nat)
    as Hgen.
  { induction 1 as [|s text l' evs' Hs _ IH]; [done|].
    destruct IH as [IH1 IH2]. rewrite !fmap_cons.
    change (sum_list (?a :: ?k)) with (a + sum_list k)%nat.
    rewrite (countLF_Local_icsEvent s text Hs). cbn [compose length]. lia. }
  destruct (Hgen _ _ Hm) as [Hlen Hsum].
  assert (evs ≠ []) as Hne.
  { intros ->. rewrite E in Hlen. done. }
  pose proof (countLF_join evs Hne) as Hjoin.
  unfold icsContent. rewrite !countLF_app.
  change (countLF LF) with 1%nat.
  change (countLF (str "BEGIN:VCALENDAR")) with 0%nat.
  change (countLF (str "VERSION:2.0")) with 0%nat.
  change (countLF (str "END:VCALENDAR")) with 0%nat.
  apply (f_equal length) in E. cbn [length] in E. lia.
Qed.

(** ** The exported text for any valid dates *)

Lemma Local_icsEvent_valid (s : Local.Schedule) :
  Z.abs (Local.date s) ≤ maxTime →
  Z.abs (Local.date s + twoHours) ≤ maxTime →
  Local.icsEvent s
  = Some (icsEventText (Local.title s) (exportStamp (Local.date s))
            (exportStamp (Local.date s + twoHours))).
Proof.
  intros H1%icsStamp_toISOString H2%icsStamp_toISOString.
  unfold Local.icsEvent.
  destruct (toISOString (Local.date s)) as [iso1|]; [|done].
  destruct (toISOString (Local.date s + twoHours)) as [iso2|]; [|done].
  cbn [mbind option_bind]. injection H1 as ->. injection H2 as ->. done.
Qed.

(** X25: when the starts and ends of the confirmed events are valid
    dates, the export offers one file: the container around one record
    per confirmed event, in their order, with the title and the stamps
    of the start and of the instant two hours later. *)
Theorem X25_export_text (st : Local.AppState) :
  Local.confirmed (Local.schedules st) ≠ [] →
  (∀ s, s ∈ Local.confirmed (Local.schedules st) →
        Z.abs (Local.date s) ≤ maxTime ∧
        Z.abs (Local.date s + twoHours) ≤ maxTime) →
  Local.exportICS st
  = Some (st,
          [Download icsFilename icsMime
             (icsContent
                (join LF
                   (map (λ s, icsEventText (Local.title s)
                                (exportStamp (Local.date s))
                                (exportStamp (Local.date s + twoHours)))
                        (Local.confirmed (Local.schedules st)))))]).
Proof.
  intros Hne Hvalid. unfold Local.exportICS. rewrite (length_eqb_0 _ Hne).
  assert (mapM Local.icsEvent (Local.confirmed (Local.schedules st))
          = Some (map (λ s, icsEventText (Local.title s)
                              (exportStamp (Local.date s))
                              (exportStamp (Local.date s + twoHours)))
                      (Local.confirmed (Local.schedules st)))) as ->; [|done].
  apply mapM_Some. clear Hne.
  induction (Local.confirmed (Local.schedules st)) as [|s l IH];
    [constructor|].
  cbn [map]. constructor.
  - destruct (Hvalid s) as [H1 H2]; [apply list_elem_of_here|].
    by apply Local_icsEvent_valid.
  - apply IH. intros x Hx. by apply Hvalid, list_elem_of_further.
Qed.

(** ** Updates of one row *)

(** X26: of two update notifications for the same id, only the later
    one shows in the mirror: the votes of the earlier one are
    overwritten as a whole. *)
Theorem X26_last_update_wins (row1 row2 : Shared.Schedule)
    (prev : list Shared.Schedule) :
  Shared.id row1 = Shared.id row2 →
  Shared.onPayload (Shared.UPDATE row2)
    (Shared.onPayload (Shared.UPDATE row1) prev)
  = Shared.onPayload (Shared.UPDATE row2) prev.
Proof.
  intros Hid. cbn [Shared.onPayload]. rewrite map_map. apply map_ext.
  intros x. destruct (decide (Shared.id x = Shared.id row1)) as [Hx|Hx].
  - rewrite (bool_decide_eq_true_2 _ Hx).
    rewrite (bool_decide_eq_true_2 _ Hid).
    by rewrite bool_decide_eq_true_2 by congruence.
  - by rewrite (bool_decide_eq_false_2 _ Hx).
Qed.

(** ** The further properties on sample data *)

Lemma X1_add_rejects_blank_titles_witness :
  Local.addSchedule 7 sampleBlank = sampleBlank ∧
  Shared.addSchedule None (sampleShared []) = Some (sampleShared [], [], []).
Proof.
  destruct X1_add_rejects_blank_titles as [Hlocal Hshared]. split.
  - apply (Hlocal 7 sampleBlank). apply (bool_decide_unpack _).
    vm_compute. exact I.
  - apply (Hshared None (sampleShared [])). apply (bool_decide_unpack _).
    vm_compute. exact I.
Defined.

Lemma X2_added_title_is_trimmed_witness :
  ∃ new p q,
    Local.schedules (Local.addSchedule 7 sampleTitled)
    = Local.schedules sampleTitled ++ [new] ∧
    Local.ui_title sampleTitled = p ++ Local.title new ++ q ∧
    Forall (λ c, is_js_space c = true) p ∧
    Forall (λ c, is_js_space c = true) q ∧
    (∀ c, head (Local.title new) = Some c → is_js_space c = false) ∧
    (∀ c, last (Local.title new) = Some c → is_js_space c = false).
Proof.
  apply (X2_added_title_is_trimmed 7 sampleTitled).
  apply (bool_decide_unpack _). vm_compute. exact I.
Defined.

Lemma X3_titles_stay_trimmed_witness :
  Local.title sampleToggled ≠ [] ∧
  trim (Local.title sampleToggled) = Local.title sampleToggled.
Proof.
  apply (X3_titles_stay_trimmed noon2025 sampleActions sampleToggled).
  vm_compute. left.
Defined.

Lemma X6_three_toggles_restore_witness :
  Local.toggleVote 1 Rino
    (Local.toggleVote 1 Rino (Local.toggleVote 1 Rino (sampleLocal noon2025)))
  = sampleLocal noon2025.
Proof.
  apply (X6_three_toggles_restore 1 Rino (sampleLocal noon2025)).
  intros s Hs _. apply list_elem_of_singleton in Hs as ->.
  vm_compute. eauto.
Defined.

Lemma X7_toggle_and_confirmation_witness :
  Local.allYes (Local.toggleOne (Local.id sampleEvent) Yaan sampleEvent) = false.
Proof.
  apply (X7_toggle_and_confirmation Yaan sampleEvent). vm_compute. reflexivity.
Defined.

Lemma X8_ids_from_clock_witness :
  NoDup (map Local.id (Local.schedules (Local.run noon2025 sampleTwoAdds))).
Proof.
  apply (X8_ids_from_clock noon2025 sampleTwoAdds).
  apply (bool_decide_unpack _). vm_compute. exact I.
Defined.

Lemma X10_toggle_one_event_witness :
  Local.schedules (Local.toggleVote (Local.id sampleNoVotes) Teru sampleThree)
  = [sampleEvent]
    ++ {| Local.id := Local.id sampleNoVotes;
          Local.date := Local.date sampleNoVotes;
          Local.title := Local.title sampleNoVotes;
          Local.votes :=
            spread_set (Local.votes sampleNoVotes) Teru
              (nextVote (Local.votes sampleNoVotes !! Teru)) |}
    :: [sampleThird].
Proof.
  apply (X10_toggle_one_event Teru sampleThree
           [sampleEvent] [sampleThird] sampleNoVotes).
  - reflexivity.
  - apply (bool_decide_unpack _). vm_compute. exact I.
Defined.

Lemma X12_confirmed_implies_responded_witness :
  Local.submittedMap [sampleNoVotes; sampleEvent] !! Teru = Some true ∧
  Shared.submittedMap [sampleRowB; sampleRow votesAllYes] !! Teru = Some true.
Proof.
  destruct X12_confirmed_implies_responded as [Hlocal Hshared]. split.
  - apply (Hlocal [sampleNoVotes; sampleEvent] sampleEvent Teru).
    vm_compute. left.
  - apply (Hshared [sampleRowB; sampleRow votesAllYes]
             (sampleRow votesAllYes) Teru).
    vm_compute. left.
Defined.

Lemma X13_flags_keys_and_order_witness :
  Local.submittedMap [sampleNoVotes; sampleEvent]
  = Local.submittedMap [sampleEvent; sampleNoVotes].
Proof.
  destruct X13_flags_keys_and_order as (_ & _ & Hlocal & _).
  apply Hlocal. apply perm_swap.
Defined.

Lemma X14_missing_vote_witness :
  Local.submittedMap [sampleNoVotes] !! Rino = Some true ∧
  Shared.submittedMap [sampleRow ∅] !! Rino = Some false ∧
  Shared.nextVotes (sampleRow ∅) Rino = <[Rino := Vno]> ∅.
Proof.
  destruct X14_missing_vote as (Hlocal & Hshared & Htoggle).
  split; [|split].
  - apply (Hlocal [sampleNoVotes] sampleNoVotes Rino); [left|reflexivity].
  - apply (Hshared [sampleRow ∅] Rino). intros s Hs.
    apply list_elem_of_singleton in Hs as ->. reflexivity.
  - apply (Htoggle (sampleRow ∅) Rino). reflexivity.
Defined.

Lemma X15_insert_then_delete_witness :
  Shared.onPayload (Shared.DELETE (Shared.id (sampleRow emptyVotes)))
    (Shared.onPayload (Shared.INSERT (sampleRow emptyVotes)) [sampleRowB])
  = [sampleRowB].
Proof.
  apply (X15_insert_then_delete (sampleRow emptyVotes) [sampleRowB]).
  apply (bool_decide_unpack _). vm_compute. exact I.
Defined.

Lemma X16_mirror_ids_witness :
  NoDup (map Shared.id
           (Shared.onPayload (Shared.INSERT (sampleRow emptyVotes))
              [sampleRowB])).
Proof.
  apply (X16_mirror_ids (Shared.INSERT (sampleRow emptyVotes)) [sampleRowB]).
  - intros row [= <-]. apply (bool_decide_unpack _). vm_compute. exact I.
  - vm_compute. apply NoDup_singleton.
Defined.

Lemma X17_update_one_row_witness :
  Shared.onPayload (Shared.UPDATE (sampleRow votesAllYes))
    ([sampleRowB] ++ sampleRow emptyVotes :: [])
  = [sampleRowB] ++ sampleRow votesAllYes :: [].
Proof.
  apply (X17_update_one_row (sampleRow votesAllYes) (sampleRow emptyVotes)
           [sampleRowB] []).
  - reflexivity.
  - apply (bool_decide_unpack _). vm_compute. exact I.
Defined.

Lemma X19_notifications_commute_witness :
  Shared.onPayload (Shared.UPDATE sampleRowB)
    (Shared.onPayload (Shared.UPDATE (sampleRow votesAllYes))
       [sampleRow emptyVotes; sampleRowFar])
  = Shared.onPayload (Shared.UPDATE (sampleRow votesAllYes))
      (Shared.onPayload (Shared.UPDATE sampleRowB)
         [sampleRow emptyVotes; sampleRowFar]).
Proof.
  destruct (X19_notifications_commute [sampleRow emptyVotes; sampleRowFar])
    as (Hupdate & _ & _).
  apply Hupdate. vm_compute. discriminate.
Defined.

Lemma X20_stamp_of_any_date_witness :
  icsStamp <$> toISOString year10000 = Some (exportStamp year10000) ∧
  (is_calendarStamp (exportStamp year10000) = true ↔ fourDigitYear year10000).
Proof.
  apply (X20_stamp_of_any_date year10000). vm_compute. discriminate.
Defined.

Lemma X21_export_throws_witness :
  Local.exportICS (sampleLocal (maxTime - 1)) = None.
Proof.
  destruct X21_export_throws as [Hlocal _].
  apply (Hlocal (sampleLocal (maxTime - 1))).
  exists {| Local.id := 1; Local.date := maxTime - 1;
            Local.title := sampleTitle; Local.votes := votesAllYes |}.
  split; [vm_compute; left|]. right. vm_compute. reflexivity.
Defined.

Lemma X22_end_stamp_same_day_witness :
  icsStamp <$> toISOString (noon2025 + twoHours)
  = Some (str "20250101T140000Z").
Proof.
  rewrite (X22_end_stamp_same_day noon2025).
  - reflexivity.
  - vm_compute. discriminate.
  - vm_compute. reflexivity.
Defined.

Lemma X23_stamp_whole_seconds_witness :
  icsStamp <$> toISOString noon2025 = icsStamp <$> toISOString (noon2025 + 999).
Proof.
  apply (X23_stamp_whole_seconds noon2025 (noon2025 + 999)).
  - vm_compute. discriminate.
  - vm_compute. discriminate.
  - reflexivity.
Defined.

Lemma X24_export_line_feeds_witness :
  countLF (sampleText "20250101T120000Z" "20250101T140000Z") = 7%nat.
Proof.
  rewrite (X24_export_line_feeds (sampleLocal noon2025)
             (sampleText "20250101T120000Z" "20250101T140000Z")).
  - reflexivity.
  - reflexivity.
Defined.

Lemma X25_export_text_witness :
  Local.exportICS (sampleLocal year10000)
  = Some (sampleLocal year10000,
          [Download icsFilename icsMime
             (sampleText "+0100000101T000000Z" "+0100000101T020000Z")]).
Proof.
  rewrite (X25_export_text (sampleLocal year10000)).
  - reflexivity.
  - vm_compute. discriminate.
  - intros s Hs. vm_compute in Hs. apply list_elem_of_singleton in Hs as ->.
    split; vm_compute; discriminate.
Defined.

Lemma X26_last_update_wins_witness :
  Shared.onPayload (Shared.UPDATE (sampleRow votesAllYes))
    (Shared.onPayload (Shared.UPDATE (sampleRow ∅)) [sampleRow emptyVotes])
  = Shared.onPayload (Shared.UPDATE (sampleRow votesAllYes))
      [sampleRow emptyVotes].
Proof.
  apply (X26_last_update_wins (sampleRow ∅) (sampleRow votesAllYes)
           [sampleRow emptyVotes]).
  reflexivity.
Defined.
